(** * bench.py: HTTP host availability benchmark

    A shallow embedding of [src/bench.py]: the URL validator
    ([HttpHostTestService.validate_url]), the request executor
    ([HostHttpBenchmark.get_response], [get_response_list]), the per-host
    aggregation ([HostTestReport.__init__], [to_string]) and the two
    orchestration modes ([test_hosts], [test_hosts_parallel]).

    Conventions of the embedding:
    - a Python [str] is the list of its code points ([pystr]);
    - a Python [int] is a [Z]; a Python [float] is a primitive binary64
      [float], the arithmetic Python itself uses; an attribute that holds
      an [int] at first and a [float] later ([max], [avg]) is a [float]
      throughout, the [int] being kept as the float of the same value,
      which compares and prints the same;
    - code that calls the network or prints runs in a state-and-exception
      monad [M] over the state of the outside world and the text written
      to standard output;
    - the [requests] library is a parameter of the development: a function
      from the state of the world to a response or a raised exception. *)

From Stdlib Require Import ZArith NArith List String Ascii Bool Lia.
From Stdlib Require Import Floats Permutation.
From Stdlib Require Uint63.
From Stdlib Require DecimalString.
Import ListNotations.

Local Open Scope Z_scope.

(** ** Python strings *)

Module PyStr.

(** A [str] is a sequence of Unicode code points. *)
Definition pystr : Type := list N.

(** Decoding of the UTF-8 bytes of a literal, so that the literals of the
    source can be written as they are. *)
Fixpoint decode_utf8 (bs : list N) : pystr :=
  match bs with
  | [] => []
  | b0 :: r0 =>
      if (b0 <? 128)%N then b0 :: decode_utf8 r0
      else match r0 with
      | [] => []
      | b1 :: r1 =>
          if (b0 <? 224)%N
          then ((b0 - 192) * 64 + (b1 - 128))%N :: decode_utf8 r1
          else match r1 with
          | [] => []
          | b2 :: r2 =>
              if (b0 <? 240)%N
              then ((b0 - 224) * 4096 + (b1 - 128) * 64 + (b2 - 128))%N
                     :: decode_utf8 r2
              else match r2 with
              | [] => []
              | b3 :: r3 =>
                  ((b0 - 240) * 262144 + (b1 - 128) * 4096
                   + (b2 - 128) * 64 + (b3 - 128))%N :: decode_utf8 r3
              end
          end
      end
  end.

Definition u (s : string) : pystr :=
  decode_utf8 (map N_of_ascii (list_ascii_of_string s)).

(** [str(n)] for an [int]. *)
Definition str_of_Z (n : Z) : pystr :=
  u (DecimalString.NilZero.string_of_int (Z.to_int n)).

End PyStr.
Export PyStr.

(** ** The fragment of [re] that [url_pattern] uses *)

Module Re.

(** Patterns: character sets, concatenation, alternation, repetition and
    the two anchors. Groups only capture, so they leave no trace here. *)
Inductive regex : Type :=
  | Fail_ : regex
  | Eps : regex
  | Caret : regex
  | Dollar : regex
  | Chr (p : N -> bool) : regex
  | Cat (r1 r2 : regex) : regex
  | Alt (r1 r2 : regex) : regex
  | Star (r : regex) : regex.

Definition Lit (c : string) : regex :=
  fold_right (fun a r => Cat (Chr (N.eqb a)) r) Eps (u c).
Definition Opt (r : regex) : regex := Alt r Eps.
Definition Plus (r : regex) : regex := Cat r (Star r).
(** [r{n,}] *)
Fixpoint AtLeast (n : nat) (r : regex) : regex :=
  match n with
  | O => Star r
  | S n' => Cat r (AtLeast n' r)
  end.

(** What the anchors see at a position: [^] holds at the start of the
    string; without [re.MULTILINE], [$] holds at the end of the string and
    just before a newline that ends the string. *)
Record ctx : Type := { at_start : bool; at_dollar : bool }.

Definition dollar_here (s : pystr) : bool :=
  match s with
  | [] => true
  | [c] => (c =? 10)%N
  | _ => false
  end.

Fixpoint nullable (k : ctx) (r : regex) : bool :=
  match r with
  | Fail_ => false
  | Eps => true
  | Caret => at_start k
  | Dollar => at_dollar k
  | Chr _ => false
  | Cat r1 r2 => nullable k r1 && nullable k r2
  | Alt r1 r2 => nullable k r1 || nullable k r2
  | Star _ => true
  end.

(** Derivative by the character [c] read at a position described by [k]. *)
Fixpoint deriv (k : ctx) (c : N) (r : regex) : regex :=
  match r with
  | Fail_ | Eps | Caret | Dollar => Fail_
  | Chr p => if p c then Eps else Fail_
  | Cat r1 r2 =>
      if nullable k r1
      then Alt (Cat (deriv k c r1) r2) (deriv k c r2)
      else Cat (deriv k c r1) r2
  | Alt r1 r2 => Alt (deriv k c r1) (deriv k c r2)
  | Star r1 => Cat (deriv k c r1) (Star r1)
  end.

Fixpoint match_from (start : bool) (r : regex) (s : pystr) : bool :=
  let k := {| at_start := start; at_dollar := dollar_here s |} in
  nullable k r
  || match s with
     | [] => false
     | c :: s' => match_from false (deriv k c r) s'
     end.

(** [bool(pattern.match(s))]: some prefix of [s] matches, from position 0. *)
Definition re_match (r : regex) (s : pystr) : bool := match_from true r s.

(** What it means for a pattern to match: [matches b s t r] says that [r]
    matches the text [s] when [t] is what follows it in the string, [b]
    telling whether [s] begins at the start of the string. *)
Definition is_nil (s : pystr) : bool :=
  match s with [] => true | _ => false end.

Inductive matches : bool -> pystr -> pystr -> regex -> Prop :=
  | M_Eps b t : matches b [] t Eps
  | M_Caret t : matches true [] t Caret
  | M_Dollar b t : dollar_here t = true -> matches b [] t Dollar
  | M_Chr b t p c : p c = true -> matches b [c] t (Chr p)
  | M_Cat b s1 s2 t r1 r2 :
      matches b s1 (s2 ++ t) r1 ->
      matches (b && is_nil s1) s2 t r2 ->
      matches b (s1 ++ s2) t (Cat r1 r2)
  | M_AltL b s t r1 r2 : matches b s t r1 -> matches b s t (Alt r1 r2)
  | M_AltR b s t r1 r2 : matches b s t r2 -> matches b s t (Alt r1 r2)
  | M_Star0 b t r : matches b [] t (Star r)
  | M_StarS b c s1 s2 t r :
      matches b (c :: s1) (s2 ++ t) r ->
      matches false s2 t (Star r) ->
      matches b (c :: s1 ++ s2) t (Star r).

(** Character classes. *)
Definition in_range (lo hi : string) (c : N) : bool :=
  match u lo, u hi with
  | [a], [b] => (a <=? c)%N && (c <=? b)%N
  | _, _ => false
  end.
Definition is_char (x : string) (c : N) : bool :=
  match u x with
  | [a] => (a =? c)%N
  | _ => false
  end.

(** [\s] on a [str] pattern: the Unicode white space characters. *)
Definition is_space (c : N) : bool :=
  ((9 <=? c) && (c <=? 13) || (28 <=? c) && (c <=? 32)
   || (c =? 133) || (c =? 160) || (c =? 5760)
   || (8192 <=? c) && (c <=? 8202) || (c =? 8232) || (c =? 8233)
   || (c =? 8239) || (c =? 8287) || (c =? 12288))%N.

End Re.
Export Re.

(** ** URL validation *)

(** [[a-zA-Z]] *)
Definition letter (c : N) : bool := in_range "a" "z" c || in_range "A" "Z" c.
(** [[a-zA-Z0-9.-]] *)
Definition domain_char (c : N) : bool :=
  letter c || in_range "0" "9" c || is_char "." c || is_char "-" c.

(** The pattern of the source, group by group: the scheme [^(https?)] and
    [://], the domain [([a-zA-Z0-9.-]+)], the suffix [(\.[a-zA-Z]{2,})], the
    optional path (a slash followed by any number of characters that are
    not white space) and the final [$]. *)
Definition url_pattern : regex :=
  Cat Caret
  (Cat (Cat (Lit "http") (Opt (Lit "s")))
  (Cat (Lit "://")
  (Cat (Plus (Chr domain_char))
  (Cat (Cat (Lit ".") (AtLeast 2 (Chr letter)))
  (Cat (Opt (Cat (Lit "/") (Star (Chr (fun c => negb (is_space c))))))
       Dollar))))).

Definition validate_url (url : pystr) : bool := re_match url_pattern url.

(** ** Exceptions *)

Module Exc.

(** The exception classes that matter to the program: the built-in ones it
    raises and catches, and the classes of [requests.exceptions]. *)
Inductive pyclass : Type :=
  | BaseException
  | KeyboardInterrupt
  | SystemExit
  | Exception
  | TypeError
  | ValueError
  | OSError
  | RequestException
  | HTTPError
  | ConnectionError
  | ProxyError
  | SSLError
  | Timeout
  | ConnectTimeout
  | ReadTimeout
  | URLRequired
  | TooManyRedirects
  | MissingSchema
  | InvalidSchema
  | InvalidURL
  | InvalidHeader
  | ChunkedEncodingError
  | ContentDecodingError
  | RetryError.

Scheme Equality for pyclass.

(** The direct base classes, as the class statements declare them
    ([RequestException] derives from [IOError], an alias of [OSError]). *)
Definition bases (c : pyclass) : list pyclass :=
  match c with
  | BaseException => []
  | KeyboardInterrupt | SystemExit | Exception => [BaseException]
  | TypeError | ValueError | OSError => [Exception]
  | RequestException => [OSError]
  | HTTPError | ConnectionError | Timeout | URLRequired | TooManyRedirects
  | ChunkedEncodingError | ContentDecodingError | RetryError =>
      [RequestException]
  | ProxyError | SSLError => [ConnectionError]
  | ConnectTimeout => [ConnectionError; Timeout]
  | ReadTimeout => [Timeout]
  | MissingSchema | InvalidSchema | InvalidURL | InvalidHeader =>
      [RequestException; ValueError]
  end.

Fixpoint derives (depth : nat) (c d : pyclass) : bool :=
  pyclass_beq c d
  || match depth with
     | O => false
     | S depth' => existsb (fun b => derives depth' b d) (bases c)
     end.

(** The hierarchy above is six classes deep. *)
Definition issubclass (c d : pyclass) : bool := derives 6 c d.

(** A raised exception: its class and [str(e)]. *)
Record exn : Type := { exn_class : pyclass; exn_str : pystr }.

(** [isinstance(e, (c1, ..., cn))], the test of an [except] clause. *)
Definition isinstance (e : exn) (cs : list pyclass) : bool :=
  existsb (issubclass (exn_class e)) cs.

(** The classes [requests] raises for a failure of the transport: a
    connection that is refused or a name that does not resolve
    ([ConnectionError]), a proxy or TLS failure ([ProxyError], [SSLError]),
    and an expired timeout ([Timeout], [ConnectTimeout], [ReadTimeout]). *)
Definition transport_failures : list pyclass :=
  [ConnectionError; ProxyError; SSLError; Timeout; ConnectTimeout; ReadTimeout].

End Exc.
Export Exc.

(** ** Responses and floats *)

(** [datetime.timedelta], normalised as Python keeps it:
    [0 <= seconds < 86400] and [0 <= microseconds < 1000000]. *)
Record timedelta : Type :=
  { days : Z; seconds : Z; microseconds : Z }.

(** The two attributes of [requests.Response] the program reads. *)
Record Response : Type :=
  { status_code : Z; elapsed : timedelta }.

(** [float(n)] for an [int]: the nearest binary64 value. *)
Definition float_of_Z (n : Z) : float :=
  SF2Prim (binary_normalize prec emax n 0 false).

Definition inf : float := infinity.

(** Rounding of the rational [num / den], [den > 0], to the nearest
    integer, ties to the even one. *)
Definition round_half_even (num den : Z) : Z :=
  let q := num / den in
  let r := num mod den in
  match (2 * r ?= den) with
  | Lt => q
  | Gt => q + 1
  | Eq => if Z.even q then q else q + 1
  end.

(** [format(x, '.1f')]: the exact value of [x], correctly rounded to one
    digit after the point. *)
Definition format_1f (x : float) : pystr :=
  let sign (s : bool) := if s then u "-" else [] in
  match Prim2SF x with
  | S754_nan => u "nan"
  | S754_infinity s => sign s ++ u "inf"
  | S754_zero s => sign s ++ u "0.0"
  | S754_finite s m e =>
      let tenths :=
        if 0 <=? e then Zpos m * 2 ^ e * 10
        else round_half_even (Zpos m * 10) (2 ^ (- e)) in
      sign s ++ str_of_Z (tenths / 10) ++ u "." ++ str_of_Z (tenths mod 10)
  end.

(** ** HostTestReport *)

Record HostTestReport : Type :=
  { host : pystr;
    success : Z;
    failed : Z;
    errors : Z;
    min : float;
    max : float;
    avg : float }.

(** The class attributes, which an instance reads until it assigns its
    own: [min = float('inf')], [max = -1], [avg = -1]. *)
Definition class_defaults : HostTestReport :=
  {| host := u ""; success := 0; failed := 0; errors := 0;
     min := inf; max := float_of_Z (-1); avg := float_of_Z (-1) |}.

(** [response.elapsed.microseconds / 1000] *)
Definition elapsed_time_ms (response : Response) : float :=
  (float_of_Z (microseconds (elapsed response)) / float_of_Z 1000)%float.

(** One turn of the loop of [__init__], on the pair of [self] and the
    local [elapsed_time_sum]; [self.min > ms] is the float comparison
    [ms < self.min]. *)
Definition init_step (acc : HostTestReport * float)
    (response : option Response) : HostTestReport * float :=
  let (self, elapsed_time_sum) := acc in
  match response with
  | None =>
      ({| host := host self; success := success self; failed := failed self;
          errors := errors self + 1;
          min := min self; max := max self; avg := avg self |},
       elapsed_time_sum)
  | Some response =>
      if status_code response =? 200 then
        let ms := elapsed_time_ms response in
        ({| host := host self; success := success self + 1;
            failed := failed self; errors := errors self;
            min := if (ms <? min self)%float then ms else min self;
            max := if (max self <? ms)%float then ms else max self;
            avg := avg self |},
         (elapsed_time_sum + ms)%float)
      else if (400 <=? status_code response) && (status_code response <? 600)
      then
        ({| host := host self; success := success self;
            failed := failed self + 1; errors := errors self;
            min := min self; max := max self; avg := avg self |},
         elapsed_time_sum)
      else (self, elapsed_time_sum)
  end.

(** [HostTestReport(host, response_list)] *)
Definition HostTestReport_init (host_ : pystr)
    (response_list : list (option Response)) : HostTestReport :=
  let self :=
    {| host := host_; success := success class_defaults;
       failed := failed class_defaults; errors := errors class_defaults;
       min := min class_defaults; max := max class_defaults;
       avg := avg class_defaults |} in
  let (self, elapsed_time_sum) :=
    fold_left init_step response_list (self, float_of_Z 0) in
  {| host := host self; success := success self; failed := failed self;
     errors := errors self; min := min self; max := max self;
     avg := if success self =? 0 then float_of_Z 0
            else (elapsed_time_sum / float_of_Z (success self))%float |}.

Definition to_string (self : HostTestReport) : pystr :=
  u "
------------------------------------
host    = " ++ host self ++ u "
success = " ++ str_of_Z (success self) ++ u "
failed  = " ++ str_of_Z (failed self) ++ u "
errors  = " ++ str_of_Z (errors self) ++ u "
max     = " ++ format_1f (max self) ++ u " ms
min     = " ++ format_1f (min self) ++ u " ms
avg     = " ++ format_1f (avg self) ++ u " ms
".

(** ** Effects: the network, standard output and exceptions *)

(** What a call comes back with: a value, or a raised exception. *)
Inductive outcome (A : Type) : Type :=
  | Returned (a : A)
  | Raised (e : exn).
Arguments Returned {A} a.
Arguments Raised {A} e.

Section Network.

(** The state of everything outside the process, and [requests.get] as a
    transition on it: it returns a response or raises. *)
Variable World : Type.
Variable requests_get : pystr -> float -> World -> outcome Response * World.

Record State : Type := { net : World; stdout : list pystr }.

Definition M (A : Type) : Type := State -> outcome A * State.

Definition ret {A} (a : A) : M A := fun st => (Returned a, st).

Definition raise {A} (e : exn) : M A := fun st => (Raised e, st).

Definition bind {A B} (m : M A) (k : A -> M B) : M B :=
  fun st =>
    match m st with
    | (Returned a, st') => k a st'
    | (Raised e, st') => (Raised e, st')
    end.

(** [try: body / except classes as e: handler] *)
Definition try_except {A} (body : M A) (classes : list pyclass)
    (handler : exn -> M A) : M A :=
  fun st =>
    match body st with
    | (Returned a, st') => (Returned a, st')
    | (Raised e, st') =>
        if isinstance e classes then handler e st' else (Raised e, st')
    end.

(** [print(line)] *)
Definition print (line : pystr) : M unit :=
  fun st => (Returned tt, {| net := net st; stdout := stdout st ++ [line] |}).

(** [requests.get(url, timeout=timeout)] *)
Definition get (url : pystr) (timeout : float) : M Response :=
  fun st =>
    let (res, w) := requests_get url timeout (net st) in
    (res, {| net := w; stdout := stdout st |}).

Notation "x <- m ;; k" := (bind m (fun x => k))
  (at level 61, m at next level, right associativity).

(** ** HostHttpBenchmark *)

Definition get_response (url : pystr) (timeout : float)
    : M (option Response) :=
  try_except
    (response <- get url timeout ;;
     ret (Some response))
    [RequestException; Timeout]
    (fun _ => ret None).

(** [[body for _ in range(n)]] *)
Fixpoint comprehension {A} (n : nat) (body : M A) : M (list A) :=
  match n with
  | O => ret []
  | S n' =>
      x <- body ;;
      xs <- comprehension n' body ;;
      ret (x :: xs)
  end.

Definition get_response_list (url : pystr) (timeout : float) (count : Z)
    : M (list (option Response)) :=
  if count <=? 0 then
    raise {| exn_class := Exception;
             exn_str := u "Кол-во запросов должно быть больше 0" |}
  else comprehension (Z.to_nat count) (get_response url timeout).

(** ** HttpHostTestService *)

Definition test_host (host_ : pystr) (timeout : float) (count : Z)
    : M HostTestReport :=
  if validate_url host_ then
    responses <- get_response_list host_ timeout count ;;
    ret (HostTestReport_init host_ responses)
  else
    raise {| exn_class := Exception;
             exn_str := u "Ошибка в формате хоста: " ++ host_ |}.

(** The [for] loop of [test_hosts]: it appends to [reports] until the
    list is exhausted or a call raises; either way [reports] is what it
    has become by then. *)
Fixpoint test_hosts_loop (hosts : list pystr) (timeout : float) (count : Z)
    (reports : list HostTestReport) (st : State)
    : list HostTestReport * option exn * State :=
  match hosts with
  | [] => (reports, None, st)
  | host_ :: rest =>
      match test_host host_ timeout count st with
      | (Returned report, st') =>
          test_hosts_loop rest timeout count (reports ++ [report]) st'
      | (Raised e, st') => (reports, Some e, st')
      end
  end.

Definition test_hosts (hosts : list pystr) (timeout : float) (count : Z)
    : M (list HostTestReport) :=
  fun st =>
    let '(reports, raised, st') := test_hosts_loop hosts timeout count [] st in
    match raised with
    | None => (Returned reports, st')
    | Some e =>
        if isinstance e [Exception] then
          (_ <- print (u "Ошибка при тестировании доступности хоста: "
                        ++ exn_str e) ;;
           ret reports) st'
        else (Raised e, st')
    end.

(** *** The thread pool

    Each submitted call of [test_host] runs in a worker thread, and the
    calls of different workers interleave on the network. One run of the
    pool is described by what it lets the program observe: the state of
    the world each task meets ([view], by position in [hosts]; the
    theorems hold for every [World], also one that scripts the responses
    of each task), and the order in which [as_completed] yields the
    futures ([completion]). *)
Record Run : Type := { view : nat -> World; completion : list nat }.

(** [executor.submit(self.test_host, host, timeout, count)], as the
    result the future ends with. *)
Definition submit (run : Run) (i : nat) (host_ : pystr) (timeout : float)
    (count : Z) : outcome HostTestReport :=
  fst (test_host host_ timeout count {| net := view run i; stdout := [] |}).

(** The dictionary [futures], in the order of submission. *)
Definition submit_all (run : Run) (hosts : list pystr) (timeout : float)
    (count : Z) : list (outcome HostTestReport * pystr) :=
  map (fun ih => (submit run (fst ih) (snd ih) timeout count, snd ih))
      (combine (seq 0 (List.length hosts)) hosts).

(** The loop over [as_completed(futures)] on the main thread. *)
Fixpoint collect (futures : list (outcome HostTestReport * pystr))
    (order : list nat) (reports : list HostTestReport) (out : list pystr)
    : outcome (list HostTestReport) * list pystr :=
  match order with
  | [] => (Returned reports, out)
  | i :: rest =>
      match nth_error futures i with
      | None => collect futures rest reports out
      | Some (Returned report, _) =>
          collect futures rest (reports ++ [report]) out
      | Some (Raised e, host_) =>
          if isinstance e [Exception] then
            collect futures rest reports
              (out ++ [u "Ошибка при тестировании доступности хоста: "
                       ++ host_ ++ u ": " ++ exn_str e])
          else (Raised e, out)
      end
  end.

(** [ThreadPoolExecutor(max_workers=n)] raises [ValueError] for [n <= 0]. *)
Definition test_hosts_parallel (hosts : list pystr) (timeout : float)
    (count : Z) (thread_count : Z) (run : Run) (out : list pystr)
    : outcome (list HostTestReport) * list pystr :=
  if thread_count <=? 0 then
    (Raised {| exn_class := ValueError;
               exn_str := u "max_workers must be greater than 0" |}, out)
  else
    collect (submit_all run hosts timeout count) (completion run) [] out.

End Network.

Arguments net {World} s.
Arguments stdout {World} s.
Arguments view {World} r.
Arguments completion {World} r.
Arguments ret {World A} a st.
Arguments raise {World A} e st.
Arguments bind {World A B} m k st.
Arguments try_except {World A} body classes handler st.
Arguments print {World} line st.
Arguments get {World} requests_get url timeout st.
Arguments get_response {World} requests_get url timeout st.
Arguments comprehension {World A} n body st.
Arguments get_response_list {World} requests_get url timeout count st.
Arguments test_host {World} requests_get host_ timeout count st.
Arguments test_hosts_loop {World} requests_get hosts timeout count reports st.
Arguments test_hosts {World} requests_get hosts timeout count st.
Arguments submit {World} requests_get run i host_ timeout count.
Arguments submit_all {World} requests_get run hosts timeout count.
Arguments test_hosts_parallel {World} requests_get hosts timeout count
  thread_count run out.

(** ** Vocabulary of the properties *)

(** How [__init__] classifies one entry of [response_list]. *)
Definition is_error (o : option Response) : bool :=
  match o with None => true | Some _ => false end.
Definition is_success (o : option Response) : bool :=
  match o with None => false | Some r => status_code r =? 200 end.
Definition is_failed (o : option Response) : bool :=
  match o with
  | None => false
  | Some r => negb (status_code r =? 200)
              && (400 <=? status_code r) && (status_code r <? 600)
  end.
(** A response counted in none of the three: any status other than 200
    outside of [400, 600). *)
Definition is_dropped (o : option Response) : bool :=
  negb (is_error o) && negb (is_success o) && negb (is_failed o).

Definition count_of (p : option Response -> bool)
    (l : list (option Response)) : Z :=
  Z.of_nat (List.length (filter p l)).

(** The latencies of the responses counted as successes, in order. *)
Definition latencies (l : list (option Response)) : list float :=
  flat_map (fun o => match o with
                     | Some r => if status_code r =? 200
                                 then [elapsed_time_ms r] else []
                     | None => []
                     end) l.

(** What the two comparisons of [__init__] leave in [self.min] and
    [self.max] after a latency [x]. *)
Definition keep_min (m x : float) : float := if (x <? m)%float then x else m.
Definition keep_max (m x : float) : float := if (m <? x)%float then x else m.

(** Left-to-right float sum, starting from [float(0)]. *)
Definition fsum (xs : list float) : float :=
  fold_left (fun s x => (s + x)%float) xs (float_of_Z 0).

(** The whole duration in milliseconds,
    [td / timedelta(milliseconds=1)]. *)
Definition total_milliseconds (td : timedelta) : float :=
  (float_of_Z ((days td * 86400 + seconds td) * 1000000 + microseconds td)
   / float_of_Z 1000)%float.

(** The longest prefix whose elements all satisfy [p]. *)
Fixpoint take_while {A} (p : A -> bool) (l : list A) : list A :=
  match l with
  | [] => []
  | a :: l' => if p a then a :: take_while p l' else []
  end.

(** The exception [test_host] raises for a host that fails validation. *)
Definition invalid_host (host_ : pystr) : exn :=
  {| exn_class := Exception;
     exn_str := u "Ошибка в формате хоста: " ++ host_ |}.

(** What the future at position [i] contributes to [reports]. *)
Definition result_at {A B} (futures : list (outcome A * B)) (i : nat)
    : list A :=
  match nth_error futures i with
  | Some fut => match fst fut with
                | Returned a => [a]
                | Raised _ => []
                end
  | None => []
  end.

(** The reports the futures ended with, in the order of submission. *)
Definition returned {A B} (futures : list (outcome A * B)) : list A :=
  flat_map (fun fut => match fst fut with
                       | Returned a => [a]
                       | Raised _ => []
                       end) futures.

Section Reference.

Variable World : Type.
Variable requests_get : pystr -> float -> World -> outcome Response * World.

(** For this URL and this timeout, [requests.get] raises nothing but the
    exceptions of [requests]. *)
Definition raises_only_RequestException (url : pystr) (timeout : float)
    : Prop :=
  forall w e w',
    requests_get url timeout w = (Raised e, w') ->
    issubclass (exn_class e) RequestException = true.

(** The state in which the [k]-th of a series of calls of [get_response]
    starts, counting from 0. *)
Fixpoint state_after (k : nat) (url : pystr) (timeout : float)
    (st : State World) : State World :=
  match k with
  | O => st
  | S k' =>
      snd (get_response requests_get url timeout
             (state_after k' url timeout st))
  end.

(** Each host of a list tested in turn, all reports kept. *)
Fixpoint test_each (hosts : list pystr) (timeout : float) (count : Z)
    : M World (list HostTestReport) :=
  match hosts with
  | [] => ret []
  | host_ :: rest =>
      bind (test_host requests_get host_ timeout count)
        (fun report =>
           bind (test_each rest timeout count)
             (fun reports => ret (report :: reports)))
  end.

End Reference.

Arguments raises_only_RequestException {World} requests_get url timeout.
Arguments state_after {World} requests_get k url timeout st.
Arguments test_each {World} requests_get hosts timeout count st.

(** ** A network for examples *)

Module Fake.

(** The world is the script of what the coming requests meet: a response,
    or nothing, which stands for a refused connection; when the script is
    over every request times out. *)
Definition World : Type := list (option Response).

Definition requests_get (url : pystr) (timeout : float) (w : World)
    : outcome Response * World :=
  match w with
  | [] => (Raised {| exn_class := ConnectTimeout; exn_str := u "timed out" |},
           [])
  | Some response :: w' => (Returned response, w')
  | None :: w' =>
      (Raised {| exn_class := ConnectionError; exn_str := u "refused" |}, w')
  end.

Definition ok (status : Z) (us : Z) : Response :=
  {| status_code := status;
     elapsed := {| days := 0; seconds := 0; microseconds := us |} |}.

Definition start (w : World) : State World := {| net := w; stdout := [] |}.

End Fake.

(** ** The methods of [str] the program calls *)

Module Text.

Fixpoint drop_space (s : pystr) : pystr :=
  match s with
  | [] => []
  | c :: s' => if is_space c then drop_space s' else s
  end.

(** [s.strip()]: white space removed at both ends. *)
Definition strip (s : pystr) : pystr :=
  rev (drop_space (rev (drop_space s))).

(** [s.split(sep)] for a separator of one character. *)
Fixpoint split (sep : N) (s : pystr) : list pystr :=
  match s with
  | [] => [[]]
  | c :: s' =>
      if (c =? sep)%N then [] :: split sep s'
      else match split sep s' with
           | [] => [[c]]
           | piece :: pieces => (c :: piece) :: pieces
           end
  end.

(** [sep.join(pieces)] *)
Fixpoint join (sep : pystr) (pieces : list pystr) : pystr :=
  match pieces with
  | [] => []
  | [piece] => piece
  | piece :: rest => piece ++ sep ++ join sep rest
  end.

(** The lines a text file opened with the default [newline=None] yields
    when iterated: a line ends at [\n], [\r] or [\r\n], each handed over
    as [\n]; the last line may have no end. *)
Fixpoint readlines (text : pystr) : list pystr :=
  match text with
  | [] => []
  | c :: rest =>
      if (c =? 10)%N then [10%N] :: readlines rest
      else if (c =? 13)%N then
        match rest with
        | c' :: rest' =>
            if (c' =? 10)%N then [10%N] :: readlines rest'
            else [10%N] :: readlines rest
        | [] => [[10%N]]
        end
      else match readlines rest with
           | [] => [[c]]
           | line :: lines => (c :: line) :: lines
           end
  end.

End Text.
Export Text.

(** ** The rest of the program: files, reports, [main] *)

(** What [parse_args] returns. The two options of the required group
    exclude each other, so exactly one of [hosts] and [file] is given. *)
Record Args : Type :=
  { args_hosts : option pystr;
    args_file : option pystr;
    args_count : Z;
    args_output : option pystr;
    args_parallel_threads : option Z }.

Section Program.

Variable World : Type.
Variable requests_get : pystr -> float -> World -> outcome Response * World.

(** The file system, as transitions on the world. [read_text] stands for
    [open(filepath, "r", encoding="utf-8")], the iteration over the file to
    its end and the closing of it: it gives the decoded text of the file,
    or the exception one of the three raised. The path is whatever the
    caller passes, a [str] or [None]. *)
Variable read_text : option pystr -> World -> outcome pystr * World.
(** [open(filepath, 'w+', encoding="utf-8")], [output_file.write(data)]
    and the closing of the file when the [with] block is left. *)
Variable open_write : pystr -> World -> outcome unit * World.
Variable file_write : pystr -> pystr -> World -> outcome unit * World.
Variable file_close : pystr -> World -> outcome unit * World.
(** [str(hosts)] for a list of strings, which [print(hosts)] writes. *)
Variable repr_list : list pystr -> pystr.

(** An operation of the outside world, run from the program. *)
Definition io {A} (op : World -> outcome A * World) : M World A :=
  fun st =>
    let (res, w) := op (net st) in
    (res, {| net := w; stdout := stdout st |}).

(** [for x in xs: body(x)] *)
Fixpoint for_each {A} (xs : list A) (body : A -> M World unit)
    : M World unit :=
  match xs with
  | [] => ret tt
  | x :: xs' => bind (body x) (fun _ => for_each xs' body)
  end.

(** The elements of a list display, evaluated from left to right. *)
Fixpoint sequence {A} (items : list (M World A)) : M World (list A) :=
  match items with
  | [] => ret []
  | item :: rest =>
      bind item (fun x => bind (sequence rest) (fun xs => ret (x :: xs)))
  end.

(** *** HostHttpBenchmark.get_response_list_mock *)

Definition get_response_list_mock : M World (list (option Response)) :=
  sequence
    [ get_response requests_get (u "https://httpbin.org/status/200")
        (float_of_Z 5);
      get_response requests_get (u "https://httpbin.org/status/200")
        (float_of_Z 5);
      get_response requests_get (u "https://httpbin.org/status/200")
        (float_of_Z 5);
      get_response requests_get (u "https://httpbin.org/status/404")
        (float_of_Z 5);
      get_response requests_get (u "https://httpbin.org/status/503")
        (float_of_Z 5);
      get_response requests_get (u "https://httpbin.org/delay/10")
        (float_of_Z 5);
      get_response requests_get (u "https://httpbin.org/status/200")
        (float_of_Z 5);
      get_response requests_get (u "https://www.youtube.com/")
        (float_of_Z 10);
      get_response requests_get (u "https://httpbin.org/status/200")
        (float_of_Z 5);
      get_response requests_get (u "https://httpbin.org/status/200")
        (float_of_Z 5) ].

(** *** read_hosts_from_file *)

(** The body of the [with] block, on the text of the file: the lines
    stripped, the empty ones left out. *)
Definition hosts_of_text (text : pystr) : list pystr :=
  filter (fun stripped => (0 <? List.length stripped)%nat)
         (map strip (readlines text)).

Definition read_hosts_from_file (filepath : option pystr)
    : M World (option (list pystr)) :=
  try_except
    (bind (io (read_text filepath))
       (fun text => ret (Some (hosts_of_text text))))
    [Exception]
    (fun e =>
       bind (print (u "Ошибка чтения файла: " ++ exn_str e))
         (fun _ => ret None)).

(** *** write_reports, print_reports *)

(** [with open(...) as f: body]: the file is closed however the body
    ends; an exception of the closing replaces the one of the body. *)
Definition with_open_write (filepath : pystr) (body : M World unit)
    : M World unit :=
  bind (io (open_write filepath))
    (fun _ st =>
       match body st with
       | (Returned _, st1) => io (file_close filepath) st1
       | (Raised e, st1) =>
           match io (file_close filepath) st1 with
           | (Returned _, st2) => (Raised e, st2)
           | (Raised e', st2) => (Raised e', st2)
           end
       end).

Definition write_reports (filepath : pystr) (reports : list HostTestReport)
    : M World unit :=
  try_except
    (with_open_write filepath
       (for_each reports
          (fun report => io (file_write filepath (to_string report)))))
    [Exception]
    (fun e => print (u "Ошибка записи в файл: " ++ exn_str e)).

Definition print_reports (reports : list HostTestReport) : M World unit :=
  for_each reports (fun report => print (to_string report)).

(** *** main *)

(** [sys.exit(1)] *)
Definition sys_exit_1 {A} : M World A :=
  raise {| exn_class := SystemExit; exn_str := u "1" |}.

(** [len(hosts)], which raises for [None]. *)
Definition len (hosts : option (list pystr)) : M World Z :=
  match hosts with
  | Some l => ret (Z.of_nat (List.length l))
  | None =>
      raise {| exn_class := TypeError;
               exn_str := u "object of type 'NoneType' has no len()" |}
  end.

(** [main], from the parsed arguments on. In the parallel mode the run of
    the pool comes with the state the pool leaves the world in. *)
Definition main (args : Args) (run : Run World) (after_pool : World)
    : M World unit :=
  bind (if args_count args <? 1 then
          bind (print (u "Параметр --count должен быть положительным числом."))
            (fun _ => sys_exit_1)
        else ret tt)
  (fun _ =>
  bind (match args_hosts args with
        | Some (c :: s) => ret (Some (split 44 (c :: s)))
        | _ => read_hosts_from_file (args_file args)
        end)
  (fun hosts =>
  bind (len hosts)
  (fun n =>
  bind (if n =? 0 then
          bind (print (u "Список хостов пуст.")) (fun _ => sys_exit_1)
        else ret tt)
  (fun _ =>
  let hosts := match hosts with Some l => l | None => [] end in
  bind (print (repr_list hosts))
  (fun _ =>
  bind (match args_parallel_threads args with
        | Some thread_count =>
            fun st =>
              let (res, out) :=
                test_hosts_parallel requests_get hosts (float_of_Z 5)
                  (args_count args) thread_count run (stdout st) in
              (res, {| net := after_pool; stdout := out |})
        | None => test_hosts requests_get hosts (float_of_Z 5) (args_count args)
        end)
  (fun reports =>
  match args_output args with
  | Some filepath => write_reports filepath reports
  | None => print_reports reports
  end)))))).

End Program.

Arguments io {World A} op st.
Arguments for_each {World A} xs body st.
Arguments sequence {World A} items st.
Arguments get_response_list_mock {World} requests_get st.
Arguments read_hosts_from_file {World} read_text filepath st.
Arguments with_open_write {World} open_write file_close filepath body st.
Arguments write_reports {World} open_write file_write file_close filepath
  reports st.
Arguments print_reports {World} reports st.
Arguments sys_exit_1 {World A} st.
Arguments len {World} hosts st.
Arguments main {World} requests_get read_text open_write file_write
  file_close repr_list args run after_pool st.

(** ** A machine for examples: the scripted network and a disk *)

Module Machine.

Record World : Type :=
  { script : Fake.World;
    files : list (pystr * pystr) }.

Fixpoint path_eqb (p q : pystr) : bool :=
  match p, q with
  | [], [] => true
  | a :: p', b :: q' => (a =? b)%N && path_eqb p' q'
  | _, _ => false
  end.

Fixpoint lookup (p : pystr) (fs : list (pystr * pystr)) : option pystr :=
  match fs with
  | [] => None
  | (q, text) :: fs' => if path_eqb p q then Some text else lookup p fs'
  end.

(** The file at [p] replaced by what [f] makes of its content. *)
Fixpoint update (p : pystr) (f : option pystr -> pystr)
    (fs : list (pystr * pystr)) : list (pystr * pystr) :=
  match fs with
  | [] => [(p, f None)]
  | (q, text) :: fs' =>
      if path_eqb p q then (q, f (Some text)) :: fs'
      else (q, text) :: update p f fs'
  end.

Definition requests_get (url : pystr) (timeout : float) (w : World)
    : outcome Response * World :=
  let (res, s) := Fake.requests_get url timeout (script w) in
  (res, {| script := s; files := files w |}).

(** A missing file and a path that is [None] make [open] raise
    ([FileNotFoundError] is an [OSError]). *)
Definition read_text (filepath : option pystr) (w : World)
    : outcome pystr * World :=
  match filepath with
  | None =>
      (Raised {| exn_class := TypeError;
                 exn_str := u "expected str, bytes or os.PathLike object, not NoneType" |},
       w)
  | Some p =>
      match lookup p (files w) with
      | Some text => (Returned text, w)
      | None =>
          (Raised {| exn_class := OSError;
                     exn_str := u "[Errno 2] No such file or directory" |},
           w)
      end
  end.

(** Opening for writing empties the file, writing appends to it. *)
Definition open_write (p : pystr) (w : World) : outcome unit * World :=
  (Returned tt,
   {| script := script w; files := update p (fun _ => []) (files w) |}).

Definition file_write (p data : pystr) (w : World) : outcome unit * World :=
  (Returned tt,
   {| script := script w;
      files := update p (fun old => match old with
                                    | Some text => text ++ data
                                    | None => data
                                    end) (files w) |}).

Definition file_close (p : pystr) (w : World) : outcome unit * World :=
  (Returned tt, w).

(** Stands for [str] of a list of strings. *)
Definition repr_list (l : list pystr) : pystr :=
  u "[" ++ join (u ", ") l ++ u "]".

Definition start (s : Fake.World) (fs : list (pystr * pystr))
    : State World :=
  {| net := {| script := s; files := fs |}; stdout := [] |}.

End Machine.

(** ** A disk that fails, for examples *)

Module Quota.

(** The world is the number of writes the disk still takes, or nothing
    when the file cannot be opened for writing. *)
Definition World : Type := option nat.

Definition open_write (p : pystr) (w : World) : outcome unit * World :=
  match w with
  | Some _ => (Returned tt, w)
  | None =>
      (Raised {| exn_class := OSError;
                 exn_str := u "[Errno 13] Permission denied" |}, w)
  end.

Definition file_write (p data : pystr) (w : World) : outcome unit * World :=
  match w with
  | Some (S n) => (Returned tt, Some n)
  | _ =>
      (Raised {| exn_class := OSError;
                 exn_str := u "[Errno 28] No space left on device" |}, w)
  end.

Definition file_close (p : pystr) (w : World) : outcome unit * World :=
  (Returned tt, w).

End Quota.

(** ** Vocabulary of the further properties *)

(** The invariant [timedelta] keeps on the field the program reads. *)
Definition normalised (o : option Response) : Prop :=
  match o with
  | Some r => 0 <= microseconds (elapsed r) < 1000000
  | None => True
  end.

(** A latency a normalised [timedelta] can give: above the [-1] that
    [max] starts from, not negative, below 1000 and below [inf]. *)
Definition in_band (x : float) : bool :=
  ((-1 <? x) && (0 <=? x) && (x <? 1000) && (x <? infinity))%float.

(** [in_band] checked on [n] successive numbers of microseconds. *)
Fixpoint band_from (n : nat) (i : PrimInt63.int) : bool :=
  match n with
  | O => true
  | S n' =>
      in_band (of_uint63 i / 1000)%float
      && band_from n' (PrimInt63.add i (Uint63.of_Z 1))
  end.

(** * Properties *)

(** ** The matcher against the meaning of patterns *)

Lemma nullable_matches b t r :
  nullable {| at_start := b; at_dollar := dollar_here t |} r = true
  <-> matches b [] t r.
Proof.
  split.
  - induction r; cbn [nullable at_start at_dollar]; intros H;
      try discriminate.
    + constructor.
    + subst b. constructor.
    + constructor. exact H.
    + apply andb_prop in H. destruct H as [H1 H2].
      apply (M_Cat b [] [] t); [apply IHr1, H1|].
      cbn [is_nil]. rewrite andb_true_r. apply IHr2, H2.
    + apply orb_prop in H. destruct H as [H|H];
        [apply M_AltL, IHr1, H | apply M_AltR, IHr2, H].
    + constructor.
  - intros H. remember [] as s eqn:Es. revert Es.
    induction H; intros Es; cbn [nullable at_start at_dollar];
      try reflexivity; try discriminate; auto.
    + apply app_eq_nil in Es. destruct Es as [-> ->].
      cbn [is_nil app] in *. rewrite andb_true_r in *.
      rewrite IHmatches1, IHmatches2 by reflexivity. reflexivity.
    + rewrite (IHmatches Es). reflexivity.
    + rewrite (IHmatches Es). apply orb_true_r.
Qed.

Lemma deriv_complete b w t r :
  matches b w t r ->
  forall c s, w = c :: s ->
  matches false s t
    (deriv {| at_start := b; at_dollar := dollar_here (w ++ t) |} c r).
Proof.
  induction 1 as [ | | | b t p c' Hp
                 | b s1 s2 t r1 r2 H1 IH1 H2 IH2
                 | b s0 t r1 r2 H IH | b s0 t r1 r2 H IH
                 | | b c' s1 s2 t r H1 IH1 H2 IH2 ];
    intros c s E; try discriminate; cbn [deriv].
  - inversion E; subst. rewrite Hp. constructor.
  - destruct s1 as [|c1 s1].
    + cbn [app] in *. subst s2. cbn [is_nil] in *. rewrite andb_true_r in *.
      apply nullable_matches in H1. rewrite H1.
      apply M_AltR. apply (IH2 c s eq_refl).
    + cbn [app] in E. inversion E; subst c1 s. rewrite <- app_assoc.
      specialize (IH1 c s1 eq_refl).
      cbn [is_nil] in H2. rewrite andb_false_r in H2.
      assert (Hcat : matches false (s1 ++ s2) t
                (Cat (deriv {| at_start := b;
                               at_dollar := dollar_here ((c :: s1) ++ s2 ++ t) |}
                        c r1) r2))
        by (apply M_Cat; [exact IH1 | exact H2]).
      destruct (nullable _ r1); [apply M_AltL|]; exact Hcat.
  - apply M_AltL. apply (IH c s E).
  - apply M_AltR. apply (IH c s E).
  - inversion E; subst c' s. specialize (IH1 c s1 eq_refl).
    cbn [app]. rewrite <- app_assoc.
    apply M_Cat; [exact IH1 | exact H2].
Qed.

Lemma deriv_sound c r :
  forall b s t,
  matches false s t
    (deriv {| at_start := b; at_dollar := dollar_here (c :: s ++ t) |} c r) ->
  matches b (c :: s) t r.
Proof.
  induction r as [ | | | | p | r1 IH1 r2 IH2 | r1 IH1 r2 IH2 | r IH ];
    intros b s t H; cbn [deriv] in H; try (inversion H; fail).
  - destruct (p c) eqn:Hp; inversion H; subst. constructor. exact Hp.
  - assert (Hcat : forall s1 s2,
              s = s1 ++ s2 ->
              matches false s1 (s2 ++ t)
                (deriv {| at_start := b;
                          at_dollar := dollar_here (c :: s ++ t) |} c r1) ->
              matches false s2 t r2 ->
              matches b (c :: s) t (Cat r1 r2)).
    { intros s1 s2 -> Hd H2. rewrite <- app_assoc in Hd.
      apply (M_Cat b (c :: s1) s2 t); [apply IH1, Hd|].
      cbn [is_nil]. rewrite andb_false_r. exact H2. }
    destruct (nullable _ r1) eqn:Hn.
    + inversion H as [ | | | | | ? ? ? ? ? H' | ? ? ? ? ? H' | | ]; subst.
      * inversion H'; subst. eapply Hcat; eauto.
      * apply (M_Cat b [] (c :: s) t).
        -- apply nullable_matches. exact Hn.
        -- cbn [is_nil]. rewrite andb_true_r. apply IH2, H'.
    + inversion H; subst. eapply Hcat; eauto.
  - inversion H; subst; [apply M_AltL, IH1 | apply M_AltR, IH2]; assumption.
  - inversion H as [ | | | | ? s1 s2 ? ? ? Hd Hs | | | | ]; subst.
    rewrite <- app_assoc in Hd. apply IH in Hd.
    apply (M_StarS b c s1 s2 t r); assumption.
Qed.

(** [match_from] finds a match exactly when some prefix has one. *)
Lemma match_from_matches s :
  forall b r,
  match_from b r s = true
  <-> exists s1 s2, s = s1 ++ s2 /\ matches b s1 s2 r.
Proof.
  induction s as [|c s IH]; intros b r; cbn [match_from].
  - rewrite orb_false_r, nullable_matches. split.
    + intros H. exists [], []. auto.
    + intros (s1 & s2 & E & H). symmetry in E.
      apply app_eq_nil in E. destruct E as [-> ->]. exact H.
  - split.
    + intros H. apply orb_prop in H. destruct H as [H|H].
      * exists [], (c :: s). split; [reflexivity|].
        apply nullable_matches, H.
      * apply IH in H. destruct H as (s1 & s2 & -> & H).
        exists (c :: s1), s2. split; [reflexivity|].
        apply deriv_sound, H.
    + intros (s1 & s2 & E & H). destruct s1 as [|c1 s1].
      * cbn [app] in E. subst s2. apply nullable_matches in H.
        rewrite H. reflexivity.
      * cbn [app] in E. inversion E; subst c1 s.
        apply orb_true_iff. right. apply IH. exists s1, s2.
        split; [reflexivity|].
        apply (deriv_complete b (c :: s1) s2 r H c s1 eq_refl).
Qed.

(** [validate_url] holds exactly of the strings with a prefix that the
    pattern matches from the start of the string. *)
Lemma validate_url_matches (url : pystr) :
  validate_url url = true
  <-> exists s1 s2, url = s1 ++ s2 /\ matches true s1 s2 url_pattern.
Proof. apply match_from_matches. Qed.

(** ** The order of binary64 floats *)

Lemma SFcompare_Lt_trans (x y z : spec_float) :
  SFcompare x y = Some Lt -> SFcompare y z = Some Lt ->
  SFcompare x z = Some Lt.
Proof.
  destruct x as [sx|sx| |sx mx ex], y as [sy|sy| |sy my ey],
           z as [sz|sz| |sz mz ez]; simpl;
    try destruct sx; try destruct sy; try destruct sz;
    intros H1 H2; try discriminate; try reflexivity.
  all: revert H1 H2; change (PosDef.Pos.compare_cont Eq) with Pos.compare.
  all: destruct (Z.compare_spec ex ey), (Z.compare_spec ey ez),
         (Z.compare_spec ex ez); try discriminate; try lia; subst.
  all: destruct (Pos.compare_spec mx my), (Pos.compare_spec my mz),
         (Pos.compare_spec mx mz); simpl;
         try discriminate; try lia; try reflexivity.
Qed.

Lemma float_ltb_trans (x y z : float) :
  (x <? y)%float = true -> (y <? z)%float = true -> (x <? z)%float = true.
Proof.
  rewrite !FloatAxioms.ltb_spec. unfold SFltb.
  destruct (SFcompare (Prim2SF x) (Prim2SF y)) as [[]|] eqn:H1;
    try discriminate.
  destruct (SFcompare (Prim2SF y) (Prim2SF z)) as [[]|] eqn:H2;
    try discriminate.
  intros _ _. now rewrite (SFcompare_Lt_trans _ _ _ H1 H2).
Qed.

Lemma float_ltb_irrefl (x : float) : (x <? x)%float = false.
Proof.
  rewrite FloatAxioms.ltb_spec. unfold SFltb.
  destruct (Prim2SF x) as [s|s| |s m e]; simpl; try destruct s;
    try reflexivity.
  all: rewrite Z.compare_refl;
       change (PosDef.Pos.compare_cont Eq) with Pos.compare;
       rewrite Pos.compare_refl; reflexivity.
Qed.

(** Once the running maximum is not below [x], it never is again. *)
Lemma keep_max_not_below (x : float) (xs : list float) :
  forall m, (m <? x)%float = false ->
            (fold_left keep_max xs m <? x)%float = false.
Proof.
  induction xs as [|y xs IH]; intros m Hm; simpl; [exact Hm|].
  apply IH. unfold keep_max.
  destruct (m <? y)%float eqn:Hmy; [|exact Hm].
  destruct (y <? x)%float eqn:Hyx; [|reflexivity].
  rewrite (float_ltb_trans _ _ _ Hmy Hyx) in Hm. discriminate.
Qed.

Lemma keep_min_not_above (x : float) (xs : list float) :
  forall m, (x <? m)%float = false ->
            (x <? fold_left keep_min xs m)%float = false.
Proof.
  induction xs as [|y xs IH]; intros m Hm; simpl; [exact Hm|].
  apply IH. unfold keep_min.
  destruct (y <? m)%float eqn:Hym; [|exact Hm].
  destruct (x <? y)%float eqn:Hxy; [|reflexivity].
  rewrite (float_ltb_trans _ _ _ Hxy Hym) in Hm. discriminate.
Qed.

Lemma keep_max_includes (x : float) (xs ys : list float) (m : float) :
  (fold_left keep_max (xs ++ x :: ys) m <? x)%float = false.
Proof.
  rewrite fold_left_app. simpl. apply keep_max_not_below.
  generalize (fold_left keep_max xs m). intros m1. unfold keep_max.
  destruct (m1 <? x)%float eqn:H; [|exact H].
  apply float_ltb_irrefl.
Qed.

Lemma keep_min_includes (x : float) (xs ys : list float) (m : float) :
  (x <? fold_left keep_min (xs ++ x :: ys) m)%float = false.
Proof.
  rewrite fold_left_app. simpl. apply keep_min_not_above.
  generalize (fold_left keep_min xs m). intros m1. unfold keep_min.
  destruct (x <? m1)%float eqn:H; [|exact H].
  apply float_ltb_irrefl.
Qed.

(** ** Aggregation *)

Lemma count_of_cons (p : option Response -> bool) o l :
  count_of p (o :: l) = (if p o then 1 else 0) + count_of p l.
Proof.
  unfold count_of. simpl. destruct (p o); simpl List.length; lia.
Qed.

Lemma count_of_app (p : option Response -> bool) l1 l2 :
  count_of p (l1 ++ l2) = count_of p l1 + count_of p l2.
Proof.
  unfold count_of. rewrite filter_app, length_app. lia.
Qed.

Lemma count_of_nonneg (p : option Response -> bool) l : 0 <= count_of p l.
Proof. unfold count_of. lia. Qed.

(** Every entry falls in exactly one of the four classes. *)
Lemma classes_partition (l : list (option Response)) :
  count_of is_success l + count_of is_failed l + count_of is_error l
  + count_of is_dropped l = Z.of_nat (List.length l).
Proof.
  induction l as [|o l IH]; [reflexivity|].
  rewrite !count_of_cons. simpl List.length. rewrite Nat2Z.inj_succ.
  revert IH.
  generalize (count_of is_success l), (count_of is_failed l),
    (count_of is_error l), (count_of is_dropped l). intros a b c d IH.
  destruct o as [r|]; unfold is_dropped, is_failed, is_success, is_error;
    [destruct (status_code r =? 200), (400 <=? status_code r),
       (status_code r <? 600)|]; cbn [negb andb]; lia.
Qed.

(** The loop of [__init__], in closed form. *)
Lemma fold_init_step (l : list (option Response)) :
  forall self elapsed_time_sum,
    fold_left init_step l (self, elapsed_time_sum)
    = ({| host := host self;
          success := success self + count_of is_success l;
          failed := failed self + count_of is_failed l;
          errors := errors self + count_of is_error l;
          min := fold_left keep_min (latencies l) (min self);
          max := fold_left keep_max (latencies l) (max self);
          avg := avg self |},
       fold_left (fun s x => (s + x)%float) (latencies l) elapsed_time_sum).
Proof.
  induction l as [|o l IH]; intros self s.
  - unfold count_of. cbn [filter List.length latencies flat_map fold_left].
    rewrite !Z.add_0_r. destruct self; reflexivity.
  - cbn [fold_left]. rewrite !count_of_cons.
    unfold latencies at 1 2 3. cbn [flat_map]. fold (latencies l).
    destruct o as [r|]; cbn [init_step is_success is_failed is_error].
    + destruct (status_code r =? 200) eqn:H200; cbn [negb andb].
      * rewrite IH. cbn [host success failed errors min max avg].
        f_equal. f_equal; try lia; reflexivity.
      * destruct ((400 <=? status_code r) && (status_code r <? 600)) eqn:Hf;
          rewrite IH; cbn [host success failed errors min max avg app];
          f_equal; f_equal; lia.
    + rewrite IH. cbn [host success failed errors min max avg app].
      f_equal. f_equal; lia.
Qed.

Lemma init_fields (host_ : pystr) (l : list (option Response)) :
  HostTestReport_init host_ l
  = {| host := host_;
       success := count_of is_success l;
       failed := count_of is_failed l;
       errors := count_of is_error l;
       min := fold_left keep_min (latencies l) inf;
       max := fold_left keep_max (latencies l) (float_of_Z (-1));
       avg := if count_of is_success l =? 0 then float_of_Z 0
              else (fsum (latencies l)
                    / float_of_Z (count_of is_success l))%float |}.
Proof.
  unfold HostTestReport_init. rewrite fold_init_step. reflexivity.
Qed.

Lemma float_of_Z_0 : float_of_Z 0 = 0%float.
Proof. vm_compute. reflexivity. Qed.

Lemma float_of_Z_m1 : float_of_Z (-1) = (-1)%float.
Proof. vm_compute. reflexivity. Qed.

Lemma no_success_count (l : list (option Response)) :
  Forall (fun o => is_success o = false) l -> count_of is_success l = 0.
Proof.
  induction 1 as [|o l Ho _ IH]; [reflexivity|].
  rewrite count_of_cons, Ho, IH. reflexivity.
Qed.

Lemma no_success_latencies (l : list (option Response)) :
  Forall (fun o => is_success o = false) l -> latencies l = [].
Proof.
  induction 1 as [|o l Ho _ IH]; [reflexivity|].
  unfold latencies in *. cbn [flat_map]. rewrite IH.
  destruct o as [r|]; [|reflexivity].
  cbn [is_success] in Ho. rewrite Ho. reflexivity.
Qed.

Lemma latencies_app (l1 l2 : list (option Response)) :
  latencies (l1 ++ l2) = latencies l1 ++ latencies l2.
Proof. unfold latencies. apply flat_map_app. Qed.

(** C8: the outcomes 200 in 10 ms, 200 in 20 ms, 404 and an error give
    success 2, failed 1, errors 1, min 10, max 20 and avg 15. *)
Theorem aggregate_example (host_ : pystr) (e : timedelta) :
  let rep :=
    HostTestReport_init host_
      [ Some {| status_code := 200;
                elapsed := {| days := 0; seconds := 0;
                              microseconds := 10000 |} |};
        Some {| status_code := 200;
                elapsed := {| days := 0; seconds := 0;
                              microseconds := 20000 |} |};
        Some {| status_code := 404; elapsed := e |};
        None ] in
  success rep = 2 /\ failed rep = 1 /\ errors rep = 1
  /\ min rep = 10%float /\ max rep = 20%float /\ avg rep = 15%float.
Proof. vm_compute. repeat split; reflexivity. Qed.

(** C3, as the code has it: the three counters add up to the number of
    outcomes less those whose status is neither 200 nor in [400, 600),
    which no counter takes. *)
Theorem counters_sum (host_ : pystr) (l : list (option Response)) :
  let rep := HostTestReport_init host_ l in
  success rep + failed rep + errors rep
  = Z.of_nat (List.length l) - count_of is_dropped l.
Proof.
  rewrite init_fields. cbn [success failed errors].
  pose proof (classes_partition l). lia.
Qed.

(** C3 fails as stated: one response with status 301 is one request, and
    the three counters stay at zero. *)
Lemma counters_miss_a_redirect :
  let rep := HostTestReport_init (u "https://example.com")
               [Some (Fake.ok 301 10000)] in
  success rep + failed rep + errors rep = 0
  /\ success rep + failed rep + errors rep
     <> Z.of_nat (List.length [Some (Fake.ok 301 10000)]).
Proof. vm_compute. split; [reflexivity | discriminate]. Qed.

(** C4, as the code has it: without a response of status 200 the average
    is 0, and [min] and [max] keep the class defaults [inf] and [-1],
    which [to_string] prints as [inf] and [-1.0]. *)
Theorem no_success_keeps_sentinels (host_ : pystr)
    (l : list (option Response)) :
  Forall (fun o => is_success o = false) l ->
  let rep := HostTestReport_init host_ l in
  avg rep = 0%float /\ min rep = infinity /\ max rep = (-1)%float
  /\ to_string rep
     = u "
------------------------------------
host    = " ++ host_ ++ u "
success = 0
failed  = " ++ str_of_Z (failed rep) ++ u "
errors  = " ++ str_of_Z (errors rep) ++ u "
max     = -1.0 ms
min     = inf ms
avg     = 0.0 ms
".
Proof.
  intros H rep. subst rep. rewrite init_fields.
  rewrite (no_success_count l H), (no_success_latencies l H).
  cbn [avg min max failed errors fold_left Z.eqb].
  rewrite float_of_Z_0, float_of_Z_m1.
  do 3 (split; [reflexivity|]).
  unfold to_string. cbn [host success failed errors min max avg].
  generalize (str_of_Z (count_of is_failed l)),
    (str_of_Z (count_of is_error l)). intros f e.
  vm_compute. reflexivity.
Qed.

Lemma no_success_keeps_sentinels_witness :
  Forall (fun o => is_success o = false) [None; Some (Fake.ok 503 700)]
  /\ let rep := HostTestReport_init (u "https://example.com")
                  [None; Some (Fake.ok 503 700)] in
     avg rep = 0%float /\ min rep = infinity /\ max rep = (-1)%float
     /\ to_string rep
        = u "
------------------------------------
host    = " ++ u "https://example.com" ++ u "
success = 0
failed  = " ++ str_of_Z (failed rep) ++ u "
errors  = " ++ str_of_Z (errors rep) ++ u "
max     = -1.0 ms
min     = inf ms
avg     = 0.0 ms
".
Proof.
  assert (H : Forall (fun o => is_success o = false)
                [None; Some (Fake.ok 503 700)])
    by (repeat constructor).
  split; [exact H|].
  exact (no_success_keeps_sentinels (u "https://example.com") _ H).
Defined.

(** C4 fails as stated: after a single error the report holds [inf] and
    [-1], and both reach the rendered text. *)
Lemma sentinels_are_rendered :
  let rep := HostTestReport_init (u "https://example.com") [None] in
  min rep = infinity /\ max rep = (-1)%float
  /\ to_string rep
     = u "
------------------------------------
host    = https://example.com
success = 0
failed  = 0
errors  = 1
max     = -1.0 ms
min     = inf ms
avg     = 0.0 ms
".
Proof. vm_compute. repeat split; reflexivity. Qed.

Lemma under_one_second (td : timedelta) :
  days td = 0 -> seconds td = 0 ->
  total_milliseconds td
  = (float_of_Z (microseconds td) / float_of_Z 1000)%float.
Proof.
  intros Hd Hs. unfold total_milliseconds. rewrite Hd, Hs. reflexivity.
Qed.

(** C2, as the code has it: a response of status 200 (and of no other
    2xx status), however long it took, adds one to [success] and to no
    other counter, and [avg] is the sum of the latencies of such responses
    over [success]; when the response took less than a second, its time in
    milliseconds is one of those latencies, [min] is not above it and
    [max] is not below it. *)
Theorem status_200_is_counted (host_ : pystr)
    (l1 l2 : list (option Response)) (r : Response) :
  status_code r = 200 ->
  let before := HostTestReport_init host_ (l1 ++ l2) in
  let rep := HostTestReport_init host_ (l1 ++ Some r :: l2) in
  success rep = success before + 1
  /\ failed rep = failed before /\ errors rep = errors before
  /\ avg rep = (fsum (latencies (l1 ++ Some r :: l2))
                / float_of_Z (success rep))%float
  /\ (days (elapsed r) = 0 -> seconds (elapsed r) = 0 ->
      let ms := total_milliseconds (elapsed r) in
      In ms (latencies (l1 ++ Some r :: l2))
      /\ (ms <? min rep)%float = false
      /\ (max rep <? ms)%float = false).
Proof.
  intros H200 before rep. subst before rep.
  rewrite !init_fields. cbn [success failed errors min max avg].
  assert (Hlat : latencies (l1 ++ Some r :: l2)
                 = latencies l1 ++ elapsed_time_ms r :: latencies l2).
  { rewrite latencies_app. f_equal. unfold latencies. cbn [flat_map].
    rewrite H200. reflexivity. }
  rewrite !count_of_app, !count_of_cons. cbn [is_success is_failed is_error].
  rewrite H200. cbn [Z.eqb Pos.eqb negb andb].
  pose proof (count_of_nonneg is_success l1).
  pose proof (count_of_nonneg is_success l2).
  split; [lia|]. split; [lia|]. split; [lia|]. split.
  - destruct (count_of is_success l1 + (1 + count_of is_success l2) =? 0)
      eqn:E; [lia | reflexivity].
  - intros Hd Hs. cbv zeta. rewrite (under_one_second _ Hd Hs).
    fold (elapsed_time_ms r). rewrite Hlat. split; [apply in_elt|].
    split; [apply keep_min_includes | apply keep_max_includes].
Qed.

Lemma status_200_is_counted_witness :
  let r := Fake.ok 200 10000 in
  let l := [None] ++ Some r :: [Some (Fake.ok 200 30000)] in
  status_code r = 200
  /\ days (elapsed r) = 0 /\ seconds (elapsed r) = 0
  /\ let before :=
       HostTestReport_init (u "https://example.com")
         ([None] ++ [Some (Fake.ok 200 30000)]) in
     let rep := HostTestReport_init (u "https://example.com") l in
     let ms := total_milliseconds (elapsed r) in
     success rep = success before + 1
     /\ failed rep = failed before /\ errors rep = errors before
     /\ avg rep = (fsum (latencies l) / float_of_Z (success rep))%float
     /\ In ms (latencies l)
     /\ (ms <? min rep)%float = false
     /\ (max rep <? ms)%float = false.
Proof.
  intros r l.
  assert (H200 : status_code r = 200) by reflexivity.
  assert (Hd : days (elapsed r) = 0) by reflexivity.
  assert (Hs : seconds (elapsed r) = 0) by reflexivity.
  split; [exact H200|]. split; [exact Hd|]. split; [exact Hs|].
  destruct (status_200_is_counted (u "https://example.com") [None]
              [Some (Fake.ok 200 30000)] r H200)
    as (H1 & H2 & H3 & H4 & H5).
  destruct (H5 Hd Hs) as (H6 & H7 & H8).
  repeat split; assumption.
Defined.

(** C2 fails as stated: a response of status 201 in 10 ms is in
    [200, 300), and the report counts no success and keeps the latency
    out of [min], [max] and [avg]. *)
Lemma status_201_is_not_counted :
  200 <= status_code (Fake.ok 201 10000) < 300
  /\ let rep := HostTestReport_init (u "https://example.com")
                  [Some (Fake.ok 201 10000)] in
     success rep = 0 /\ min rep = infinity /\ max rep = (-1)%float
     /\ avg rep = 0%float.
Proof. vm_compute. repeat split; discriminate || reflexivity. Qed.

(** ** The request executor *)

Section Executor.

Variable World : Type.
Variable requests_get : pystr -> float -> World -> outcome Response * World.

Lemma get_response_returned url timeout st r w :
  requests_get url timeout (net st) = (Returned r, w) ->
  get_response requests_get url timeout st = (Returned (Some r), {| net := w; stdout := stdout st |}).
Proof.
  intros H. unfold get_response, try_except, bind, get. rewrite H. reflexivity.
Qed.

Lemma get_response_raised url timeout st e w :
  requests_get url timeout (net st) = (Raised e, w) ->
  get_response requests_get url timeout st
  = if isinstance e [RequestException; Timeout]
    then (Returned None, {| net := w; stdout := stdout st |})
    else (Raised e, {| net := w; stdout := stdout st |}).
Proof.
  intros H. unfold get_response, try_except, bind, get. rewrite H.
  destruct (isinstance e _); reflexivity.
Qed.

Lemma caught_RequestException (e : exn) :
  issubclass (exn_class e) RequestException = true ->
  isinstance e [RequestException; Timeout] = true.
Proof. intros H. unfold isinstance. cbn [existsb]. rewrite H. reflexivity. Qed.

Lemma transport_failures_derive (c : pyclass) :
  In c transport_failures -> issubclass c RequestException = true.
Proof.
  unfold transport_failures. cbn [In].
  intros [<-|[<-|[<-|[<-|[<-|[<-|[]]]]]]]; vm_compute; reflexivity.
Qed.

(** C9: when [requests.get] fails with an exception of the transport (a
    refused connection, a name that does not resolve, a TLS failure, an
    expired timeout), [get_response] raises nothing and returns [None]. *)
Theorem get_response_absorbs_transport_failures url timeout st e w :
  requests_get url timeout (net st) = (Raised e, w) ->
  In (exn_class e) transport_failures ->
  get_response requests_get url timeout st
  = (Returned None, {| net := w; stdout := stdout st |}).
Proof.
  intros Hget Hin. rewrite (get_response_raised _ _ _ _ _ Hget).
  rewrite caught_RequestException; [reflexivity|].
  apply transport_failures_derive, Hin.
Qed.

(** With a [requests] that raises only its own exceptions, [get_response]
    always returns, and prints nothing. *)
Lemma get_response_total url timeout st :
  raises_only_RequestException requests_get url timeout ->
  exists o st',
    get_response requests_get url timeout st = (Returned o, st')
    /\ stdout st' = stdout st.
Proof.
  intros WB.
  destruct (requests_get url timeout (net st)) as [[r|e] w] eqn:H.
  - rewrite (get_response_returned _ _ _ _ _ H). eauto.
  - rewrite (get_response_raised _ _ _ _ _ H).
    rewrite caught_RequestException by (eapply WB, H). eauto.
Qed.

Lemma state_after_shift k url timeout st :
  state_after requests_get (S k) url timeout st
  = state_after requests_get k url timeout
      (snd (get_response requests_get url timeout st)).
Proof.
  induction k as [|k IH]; [reflexivity|].
  cbn [state_after] in *. rewrite IH. reflexivity.
Qed.

Lemma state_after_stdout k url timeout st :
  raises_only_RequestException requests_get url timeout ->
  stdout (state_after requests_get k url timeout st) = stdout st.
Proof.
  intros WB. induction k as [|k IH]; [reflexivity|].
  cbn [state_after].
  destruct (get_response_total url timeout
              (state_after requests_get k url timeout st) WB)
    as (o & st' & E & Hout).
  rewrite E. cbn [snd]. congruence.
Qed.

(** The list comprehension of [get_response_list]: [n] calls, each from
    the state the one before left. *)
Lemma comprehension_get_response url timeout n :
  raises_only_RequestException requests_get url timeout ->
  forall st,
  exists outcomes,
    comprehension n (get_response requests_get url timeout) st
    = (Returned outcomes, state_after requests_get n url timeout st)
    /\ List.length outcomes = n
    /\ forall k, (k < n)%nat ->
         exists o,
           nth_error outcomes k = Some o
           /\ fst (get_response requests_get url timeout
                     (state_after requests_get k url timeout st))
              = Returned o.
Proof.
  intros WB. induction n as [|n IH]; intros st.
  - exists []. repeat split. intros k Hk. lia.
  - destruct (get_response_total url timeout st WB) as (o & st1 & E & _).
    destruct (IH st1) as (os & Eos & Hlen & Hnth).
    exists (o :: os). rewrite state_after_shift, E. cbn [snd].
    split; [|split].
    + cbn [comprehension]. unfold bind at 1. rewrite E.
      unfold bind at 1. rewrite Eos. reflexivity.
    + cbn [List.length]. congruence.
    + intros [|k] Hk.
      * exists o. cbn [nth_error state_after]. rewrite E. auto.
      * destruct (Hnth k ltac:(lia)) as (o' & Ho' & Hget).
        exists o'. rewrite state_after_shift, E. cbn [snd nth_error]. auto.
Qed.

Lemma get_response_list_positive url timeout count st :
  1 <= count ->
  raises_only_RequestException requests_get url timeout ->
  exists outcomes,
    get_response_list requests_get url timeout count st
    = (Returned outcomes,
       state_after requests_get (Z.to_nat count) url timeout st)
    /\ Z.of_nat (List.length outcomes) = count
    /\ forall k, (k < Z.to_nat count)%nat ->
         exists o,
           nth_error outcomes k = Some o
           /\ fst (get_response requests_get url timeout
                     (state_after requests_get k url timeout st))
              = Returned o.
Proof.
  intros H WB. unfold get_response_list.
  destruct (count <=? 0) eqn:E; [apply Z.leb_le in E; lia|].
  destruct (comprehension_get_response url timeout (Z.to_nat count) WB st)
    as (os & Eos & Hlen & Hnth).
  exists os. split; [exact Eos|]. split; [lia | exact Hnth].
Qed.

(** C5: [get_response_list] raises for every [count <= 0], before any
    request; for [count >= 1] it returns exactly [count] outcomes, the
    [k]-th being what the [k]-th of [count] successive calls of
    [get_response] on the same URL returned. *)
Theorem get_response_list_count url timeout count st :
  (count <= 0 ->
   exists e,
     get_response_list requests_get url timeout count st = (Raised e, st)
     /\ exn_class e = Exception)
  /\ (1 <= count ->
      raises_only_RequestException requests_get url timeout ->
      exists outcomes,
        get_response_list requests_get url timeout count st
        = (Returned outcomes,
           state_after requests_get (Z.to_nat count) url timeout st)
        /\ Z.of_nat (List.length outcomes) = count
        /\ forall k, (k < Z.to_nat count)%nat ->
             exists o,
               nth_error outcomes k = Some o
               /\ fst (get_response requests_get url timeout
                         (state_after requests_get k url timeout st))
                  = Returned o).
Proof.
  split.
  - intros H. unfold get_response_list. apply Z.leb_le in H. rewrite H.
    eexists. split; reflexivity.
  - apply get_response_list_positive.
Qed.

End Executor.

Lemma fake_raises_only_RequestException url timeout :
  raises_only_RequestException Fake.requests_get url timeout.
Proof.
  intros w e w' H.
  destruct w as [|[r|] w]; cbn [Fake.requests_get] in H;
    inversion H; subst; vm_compute; reflexivity.
Qed.

Lemma get_response_absorbs_transport_failures_witness :
  let url := u "https://example.com" in
  let e := {| exn_class := ConnectTimeout; exn_str := u "timed out" |} in
  Fake.requests_get url 5%float (net (Fake.start [])) = (Raised e, [])
  /\ In (exn_class e) transport_failures
  /\ get_response Fake.requests_get url 5%float (Fake.start [])
     = (Returned None, {| net := []; stdout := [] |}).
Proof.
  assert (H : In ConnectTimeout transport_failures)
    by (vm_compute; tauto).
  split; [reflexivity|]. split; [exact H|].
  exact (get_response_absorbs_transport_failures Fake.World
           Fake.requests_get (u "https://example.com") 5%float
           (Fake.start []) _ [] eq_refl H).
Defined.

Lemma get_response_list_count_witness :
  let url := u "https://example.com" in
  let st := Fake.start [Some (Fake.ok 200 10000); None] in
  (0 <= 0
   /\ exists e,
        get_response_list Fake.requests_get url 5%float 0 st = (Raised e, st)
        /\ exn_class e = Exception)
  /\ (1 <= 3
      /\ raises_only_RequestException Fake.requests_get url 5%float
      /\ exists outcomes,
           get_response_list Fake.requests_get url 5%float 3 st
           = (Returned outcomes,
              state_after Fake.requests_get (Z.to_nat 3) url 5%float st)
           /\ Z.of_nat (List.length outcomes) = 3
           /\ forall k, (k < Z.to_nat 3)%nat ->
                exists o,
                  nth_error outcomes k = Some o
                  /\ fst (get_response Fake.requests_get url 5%float
                            (state_after Fake.requests_get k url 5%float st))
                     = Returned o).
Proof.
  intros url st. split.
  - split; [lia|].
    apply (get_response_list_count Fake.World Fake.requests_get
             url 5%float 0 st). lia.
  - split; [lia|]. split; [apply fake_raises_only_RequestException|].
    apply (get_response_list_count Fake.World Fake.requests_get
             url 5%float 3 st); [lia | apply fake_raises_only_RequestException].
Defined.

(** ** The orchestrator *)

Section Orchestrator.

Variable World : Type.
Variable requests_get : pystr -> float -> World -> outcome Response * World.

Lemma test_host_invalid host_ timeout count (st : State World) :
  validate_url host_ = false ->
  test_host requests_get host_ timeout count st
  = (Raised (invalid_host host_), st).
Proof. intros H. unfold test_host. rewrite H. reflexivity. Qed.

Lemma test_host_valid host_ timeout count (st : State World) :
  validate_url host_ = true -> 1 <= count ->
  raises_only_RequestException requests_get host_ timeout ->
  exists report st',
    test_host requests_get host_ timeout count st = (Returned report, st')
    /\ host report = host_ /\ stdout st' = stdout st.
Proof.
  intros Hv Hc WB. unfold test_host. rewrite Hv.
  destruct (get_response_list_positive World requests_get host_ timeout
              count st Hc WB) as (os & E & _).
  unfold bind. rewrite E. do 2 eexists. split; [reflexivity|]. split.
  - rewrite init_fields. reflexivity.
  - apply state_after_stdout, WB.
Qed.

Lemma test_each_valid hosts timeout count :
  forallb validate_url hosts = true -> 1 <= count ->
  (forall h, In h hosts ->
             raises_only_RequestException requests_get h timeout) ->
  forall st : State World,
  exists reports st',
    test_each requests_get hosts timeout count st = (Returned reports, st')
    /\ map host reports = hosts /\ stdout st' = stdout st.
Proof.
  intros Hv Hc WB. induction hosts as [|h hosts IH]; intros st.
  - exists [], st. repeat split.
  - cbn [forallb] in Hv. apply andb_prop in Hv. destruct Hv as [Hh Hv].
    destruct (test_host_valid h timeout count st Hh Hc (WB h (in_eq _ _)))
      as (r & st1 & E1 & Hr & Hout1).
    destruct (IH Hv (fun h' H' => WB h' (in_cons _ _ _ H')) st1)
      as (rs & st2 & E2 & Hrs & Hout2).
    exists (r :: rs), st2. cbn [test_each]. unfold bind at 1. rewrite E1.
    unfold bind at 1. rewrite E2. cbn [map]. rewrite Hr, Hrs.
    repeat split. congruence.
Qed.

Lemma take_while_all {A} (p : A -> bool) (l : list A) :
  forallb p (take_while p l) = true.
Proof.
  induction l as [|a l IH]; [reflexivity|].
  cbn [take_while]. destruct (p a) eqn:E; [|reflexivity].
  cbn [forallb]. rewrite E, IH. reflexivity.
Qed.

Lemma take_while_incl {A} (p : A -> bool) (l : list A) :
  incl (take_while p l) l.
Proof.
  induction l as [|a l IH]; cbn [take_while]; [apply incl_refl|].
  destruct (p a); [|apply incl_nil_l].
  apply incl_cons; [apply in_eq | apply incl_tl, IH].
Qed.

Lemma take_while_stops {A} (p : A -> bool) (pre : list A) bad post :
  forallb p pre = true -> p bad = false ->
  take_while p (pre ++ bad :: post) = pre
  /\ find (fun a => negb (p a)) (pre ++ bad :: post) = Some bad.
Proof.
  intros Hpre Hbad. induction pre as [|a pre IH]; cbn.
  - rewrite Hbad. auto.
  - cbn [forallb] in Hpre. apply andb_prop in Hpre. destruct Hpre as [Ha Hpre].
    rewrite Ha. cbn. destruct (IH Hpre) as [-> ->]. auto.
Qed.

(** The loop of [test_hosts]: it gathers the reports of the valid prefix
    and ends with the exception of the first invalid host, if there is
    one. *)
Lemma test_hosts_loop_prefix hosts timeout count :
  1 <= count ->
  (forall h, In h (take_while validate_url hosts) ->
             raises_only_RequestException requests_get h timeout) ->
  forall acc (st : State World),
  exists reports st',
    test_each requests_get (take_while validate_url hosts) timeout count st
    = (Returned reports, st')
    /\ test_hosts_loop requests_get hosts timeout count acc st
       = (acc ++ reports,
          option_map invalid_host
            (find (fun h => negb (validate_url h)) hosts),
          st').
Proof.
  intros Hc. induction hosts as [|h hosts IH]; intros WB acc st.
  - exists [], st. cbn. rewrite app_nil_r. auto.
  - cbn [take_while find test_hosts_loop] in *.
    destruct (validate_url h) eqn:Hv; cbn [negb].
    + destruct (test_host_valid h timeout count st Hv Hc (WB h (in_eq _ _)))
        as (r & st1 & E1 & _).
      destruct (IH (fun h' H' => WB h' (in_cons _ _ _ H')) (acc ++ [r]) st1)
        as (rs & st2 & E2 & Eloop).
      exists (r :: rs), st2. rewrite E1, Eloop. cbn [test_each].
      unfold bind at 1. rewrite E1. unfold bind at 1. rewrite E2.
      rewrite <- app_assoc. auto.
    + exists [], st. rewrite (test_host_invalid h timeout count st Hv).
      cbn. rewrite app_nil_r. auto.
Qed.

(** C10: [test_hosts] returns the reports of the longest prefix of hosts
    that pass validation, in input order: what testing exactly those
    hosts one after another gives. *)
Theorem test_hosts_returns_valid_prefix hosts timeout count
    (st : State World) :
  1 <= count ->
  (forall h, In h hosts ->
             raises_only_RequestException requests_get h timeout) ->
  exists reports st1,
    test_each requests_get (take_while validate_url hosts) timeout count st
    = (Returned reports, st1)
    /\ fst (test_hosts requests_get hosts timeout count st)
       = Returned reports
    /\ map host reports = take_while validate_url hosts
    /\ net (snd (test_hosts requests_get hosts timeout count st)) = net st1.
Proof.
  intros Hc WB.
  assert (WB' : forall h, In h (take_while validate_url hosts) ->
                  raises_only_RequestException requests_get h timeout)
    by (intros h Hh; apply WB, (take_while_incl validate_url hosts h Hh)).
  destruct (test_hosts_loop_prefix hosts timeout count Hc WB' [] st)
    as (rs & st1 & Eeach & Eloop).
  exists rs, st1. split; [exact Eeach|].
  unfold test_hosts. rewrite Eloop. cbn [app].
  destruct (test_each_valid _ timeout count
              (take_while_all validate_url hosts) Hc WB' st)
    as (rs' & st' & E' & Hhosts & _).
  rewrite Eeach in E'. inversion E'; subst rs' st'.
  destruct (find _ hosts); cbn; auto.
Qed.

(** C1, as the code has it: with an invalid host in the list, a positive
    count and a [requests.get] that raises only exceptions of [requests]
    for the hosts before it, [test_hosts] tests the hosts before the first
    invalid one, one after another, and stops there: it returns exactly
    their reports (none only when there is no host before it), it leaves
    the network as testing those hosts left it, so that neither the
    invalid host nor a later one is requested, and it prints one line for
    the invalid host. *)
Theorem test_hosts_stops_at_first_invalid pre bad post timeout count
    (st : State World) :
  forallb validate_url pre = true -> validate_url bad = false ->
  1 <= count ->
  (forall h, In h pre ->
             raises_only_RequestException requests_get h timeout) ->
  exists reports st1,
    test_each requests_get pre timeout count st = (Returned reports, st1)
    /\ test_hosts requests_get (pre ++ bad :: post) timeout count st
       = (Returned reports,
          {| net := net st1;
             stdout :=
               stdout st
               ++ [u "Ошибка при тестировании доступности хоста: "
                   ++ u "Ошибка в формате хоста: " ++ bad] |})
    /\ map host reports = pre
    /\ (reports = [] <-> pre = []).
Proof.
  intros Hpre Hbad Hc WB.
  destruct (take_while_stops validate_url pre bad post Hpre Hbad)
    as [Htake Hfind].
  destruct (test_hosts_loop_prefix (pre ++ bad :: post) timeout count Hc)
    with (acc := @nil HostTestReport) (st := st)
    as (rs & st1 & Eeach & Eloop); [rewrite Htake; exact WB|].
  rewrite Htake in Eeach. rewrite Hfind in Eloop.
  destruct (test_each_valid pre timeout count Hpre Hc WB st)
    as (rs' & st' & E' & Hhosts & Hout).
  rewrite Eeach in E'. inversion E'; subst rs' st'.
  exists rs, st1. split; [exact Eeach|]. split; [|split; [exact Hhosts|]].
  - unfold test_hosts. rewrite Eloop. cbn [option_map app].
    assert (Hi : isinstance (invalid_host bad) [Exception] = true)
      by (vm_compute; reflexivity).
    rewrite Hi. unfold bind, print, ret. cbn [net stdout invalid_host exn_str].
    rewrite Hout. reflexivity.
  - rewrite <- Hhosts. split; [intros ->; reflexivity|].
    destruct rs; [reflexivity | discriminate].
Qed.

End Orchestrator.

(** ** The thread pool *)

Section Pool.

Variable World : Type.
Variable requests_get : pystr -> float -> World -> outcome Response * World.

Lemma result_at_cons {A B} (fut : outcome A * B) futures i :
  result_at (fut :: futures) (S i) = result_at futures i.
Proof. reflexivity. Qed.

(** Going through every position once, in order, gives [returned]. *)
Lemma result_at_seq {A B} (futures : list (outcome A * B)) :
  flat_map (result_at futures) (seq 0 (List.length futures))
  = returned futures.
Proof.
  induction futures as [|fut futures IH]; [reflexivity|].
  cbn [List.length seq flat_map]. rewrite <- seq_shift.
  rewrite flat_map_concat_map, map_map, <- flat_map_concat_map.
  rewrite (flat_map_ext _ (result_at futures)) by (intros; reflexivity).
  rewrite IH. reflexivity.
Qed.

(** When every exception of a future is caught, the loop over the
    completed futures ends with the reports of the futures it met. *)
Lemma collect_caught (futures : list (outcome HostTestReport * pystr)) :
  (forall i e h, nth_error futures i = Some (Raised e, h) ->
                 isinstance e [Exception] = true) ->
  forall order reports out,
  exists out',
    collect futures order reports out
    = (Returned (reports ++ flat_map (result_at futures) order), out').
Proof.
  intros Hcaught. induction order as [|i order IH]; intros reports out.
  - exists out. cbn. rewrite app_nil_r. reflexivity.
  - cbn [collect flat_map]. unfold result_at at 1.
    destruct (nth_error futures i) as [[[r|e] h]|] eqn:E; cbn [fst].
    + destruct (IH (reports ++ [r]) out) as (out' & ->).
      exists out'. rewrite <- app_assoc. reflexivity.
    + rewrite (Hcaught i e h E). apply IH.
    + apply IH.
Qed.

Lemma submit_all_results run hosts timeout count :
  1 <= count ->
  (forall h, In h hosts ->
             raises_only_RequestException requests_get h timeout) ->
  forall start,
  let futures :=
    map (fun ih => (submit requests_get run (fst ih) (snd ih) timeout count,
                    snd ih))
        (combine (seq start (List.length hosts)) hosts) in
  map host (returned futures) = filter validate_url hosts
  /\ forall fut e, In fut futures -> fst fut = Raised e ->
                   isinstance e [Exception] = true.
Proof.
  intros Hc. induction hosts as [|h hosts IH]; intros WB start.
  - cbn. split; [reflexivity | tauto].
  - cbn [List.length seq combine map filter]. cbn zeta.
    destruct (IH (fun h' H' => WB h' (in_cons _ _ _ H')) (S start))
      as [IHr IHe]. cbn zeta in IHr, IHe.
    unfold returned in *. cbn [flat_map fst snd]. rewrite map_app, IHr.
    destruct (validate_url h) eqn:Hv.
    + destruct (test_host_valid World requests_get h timeout count
                  {| net := view run start; stdout := [] |} Hv Hc
                  (WB h (in_eq _ _)))
        as (r & st' & E & Hr & _).
      assert (Hs : submit requests_get run start h timeout count
                   = Returned r) by (unfold submit; rewrite E; reflexivity).
      rewrite Hs. cbn [fst map app]. rewrite Hr. split; [reflexivity|].
      intros fut e [<-|Hin] Hfut; [discriminate|]. eapply IHe; eauto.
    + assert (Hs : submit requests_get run start h timeout count
                   = Raised (invalid_host h)).
      { unfold submit.
        rewrite (test_host_invalid World requests_get h timeout count _ Hv).
        reflexivity. }
      rewrite Hs. cbn [fst map app]. split; [reflexivity|].
      intros fut e [<-|Hin] Hfut.
      * cbn [fst] in Hfut. inversion Hfut. vm_compute. reflexivity.
      * eapply IHe; eauto.
Qed.


End Pool.

(** ** The examples of the specification *)

(** C7: the validator accepts [https://example.com] and
    [http://example.com/path], and rejects [ftp://example.com],
    [example.com] and [https://bad_domain]. *)
Theorem validate_url_examples :
  validate_url (u "https://example.com") = true
  /\ validate_url (u "http://example.com/path") = true
  /\ validate_url (u "ftp://example.com") = false
  /\ validate_url (u "example.com") = false
  /\ validate_url (u "https://bad_domain") = false.
Proof. vm_compute. repeat split; reflexivity. Qed.

(** C1 fails as stated: on five hosts of which the third is invalid,
    [test_hosts] returns the reports of the first two. *)
Lemma test_hosts_keeps_earlier_reports :
  let hosts := [u "https://example.com"; u "http://example.com/path";
                u "https://bad_domain"; u "https://example.org";
                u "http://example.net"] in
  validate_url (u "https://bad_domain") = false
  /\ fst (test_hosts Fake.requests_get hosts 5%float 1
            (Fake.start [Some (Fake.ok 200 10000); Some (Fake.ok 200 20000)]))
     = Returned [HostTestReport_init (u "https://example.com")
                   [Some (Fake.ok 200 10000)];
                 HostTestReport_init (u "http://example.com/path")
                   [Some (Fake.ok 200 20000)]].
Proof. vm_compute. split; reflexivity. Qed.

Lemma test_hosts_stops_at_first_invalid_witness :
  let pre := [u "https://example.com"] in
  let bad := u "ftp://example.com" in
  let post := [u "http://example.com/path"] in
  let st := Fake.start [Some (Fake.ok 200 10000); None] in
  forallb validate_url pre = true /\ validate_url bad = false
  /\ 1 <= 2
  /\ (forall h, In h pre ->
                raises_only_RequestException Fake.requests_get h 5%float)
  /\ exists reports st1,
       test_each Fake.requests_get pre 5%float 2 st = (Returned reports, st1)
       /\ test_hosts Fake.requests_get (pre ++ bad :: post) 5%float 2 st
          = (Returned reports,
             {| net := net st1;
                stdout :=
                  stdout st
                  ++ [u "Ошибка при тестировании доступности хоста: "
                      ++ u "Ошибка в формате хоста: " ++ bad] |})
       /\ map host reports = pre
       /\ (reports = [] <-> pre = []).
Proof.
  intros pre bad post st.
  assert (Hpre : forallb validate_url pre = true) by (vm_compute; reflexivity).
  assert (Hbad : validate_url bad = false) by (vm_compute; reflexivity).
  assert (Hc : 1 <= 2) by lia.
  assert (WB : forall h, In h pre ->
                 raises_only_RequestException Fake.requests_get h 5%float)
    by (intros h _; apply fake_raises_only_RequestException).
  repeat (split; [assumption|]).
  exact (test_hosts_stops_at_first_invalid Fake.World Fake.requests_get
           pre bad post 5%float 2 st Hpre Hbad Hc WB).
Defined.

Lemma test_hosts_returns_valid_prefix_witness :
  let hosts := [u "https://example.com"; u "http://example.com/path";
                u "example.com"; u "https://example.com"] in
  let st := Fake.start [Some (Fake.ok 200 10000); Some (Fake.ok 404 700)] in
  1 <= 1
  /\ (forall h, In h hosts ->
                raises_only_RequestException Fake.requests_get h 5%float)
  /\ exists reports st1,
       test_each Fake.requests_get (take_while validate_url hosts)
         5%float 1 st = (Returned reports, st1)
       /\ fst (test_hosts Fake.requests_get hosts 5%float 1 st)
          = Returned reports
       /\ map host reports = take_while validate_url hosts
       /\ net (snd (test_hosts Fake.requests_get hosts 5%float 1 st))
          = net st1.
Proof.
  intros hosts st.
  assert (Hc : 1 <= 1) by lia.
  assert (WB : forall h, In h hosts ->
                 raises_only_RequestException Fake.requests_get h 5%float)
    by (intros h _; apply fake_raises_only_RequestException).
  split; [exact Hc|]. split; [exact WB|].
  exact (test_hosts_returns_valid_prefix Fake.World Fake.requests_get
           hosts 5%float 1 st Hc WB).
Defined.


(** * Further properties *)

(** ** What the pattern accepts *)

Lemma matches_Eps b s t : matches b s t Eps <-> s = [].
Proof.
  split; [inversion 1; reflexivity | intros ->; constructor].
Qed.

Lemma matches_Caret b s t : matches b s t Caret <-> s = [] /\ b = true.
Proof.
  split; [inversion 1; auto | intros [-> ->]; constructor].
Qed.

Lemma matches_Dollar b s t :
  matches b s t Dollar <-> s = [] /\ (t = [] \/ t = [10%N]).
Proof.
  assert (Hd : dollar_here t = true <-> t = [] \/ t = [10%N]).
  { destruct t as [|c [|c' t]]; cbn [dollar_here].
    - tauto.
    - rewrite N.eqb_eq. split; [intros ->; auto | intros [H|H]; now inversion H].
    - split; [discriminate | intros [H|H]; inversion H]. }
  split.
  - inversion 1; subst. split; [reflexivity | apply Hd; assumption].
  - intros [-> H]. constructor. apply Hd, H.
Qed.

Lemma matches_Chr b s t p :
  matches b s t (Chr p) <-> exists c, s = [c] /\ p c = true.
Proof.
  split; [inversion 1; eauto | intros (c & -> & H); constructor; exact H].
Qed.

Lemma matches_Cat b s t r1 r2 :
  matches b s t (Cat r1 r2)
  <-> exists s1 s2, s = s1 ++ s2 /\ matches b s1 (s2 ++ t) r1
                    /\ matches (b && is_nil s1) s2 t r2.
Proof.
  split; [inversion 1; eauto | intros (s1 & s2 & -> & H1 & H2)].
  constructor; assumption.
Qed.

Lemma matches_Alt b s t r1 r2 :
  matches b s t (Alt r1 r2) <-> matches b s t r1 \/ matches b s t r2.
Proof.
  split; [inversion 1; auto | intros [H|H]; [apply M_AltL | apply M_AltR]; exact H].
Qed.

(** A literal matches itself and nothing else. *)
Lemma matches_literal b s t (l : pystr) :
  matches b s t (fold_right (fun a r => Cat (Chr (N.eqb a)) r) Eps l)
  <-> s = l.
Proof.
  revert b s. induction l as [|a l IH]; intros b s; cbn [fold_right].
  - apply matches_Eps.
  - rewrite matches_Cat. split.
    + intros (s1 & s2 & -> & H1 & H2). apply matches_Chr in H1.
      destruct H1 as (c & -> & Hc). apply N.eqb_eq in Hc. subst c.
      apply IH in H2. subst s2. reflexivity.
    + intros ->. exists [a], l. split; [reflexivity|]. split.
      * apply matches_Chr. exists a. split; [reflexivity | apply N.eqb_refl].
      * apply IH. reflexivity.
Qed.

Lemma matches_Lit b s t (lit : string) :
  matches b s t (Lit lit) <-> s = u lit.
Proof. apply matches_literal. Qed.

(** A repeated character set matches the strings drawn from the set. *)
Lemma matches_Star_Chr b s t p :
  matches b s t (Star (Chr p)) <-> forallb p s = true.
Proof.
  split.
  - intros H. remember (Star (Chr p)) as r eqn:Er. revert Er.
    induction H; intros Er; try discriminate; [reflexivity|].
    inversion Er; subst r. apply matches_Chr in H.
    destruct H as (c' & E & Hc). inversion E; subst.
    cbn [app forallb]. rewrite Hc. apply IHmatches2. reflexivity.
  - revert b. induction s as [|c s IH]; intros b H; [constructor|].
    cbn [forallb] in H. apply andb_prop in H. destruct H as [Hc Hs].
    apply (M_StarS b c [] s t (Chr p)).
    + constructor. exact Hc.
    + apply IH, Hs.
Qed.

(** At least [n] characters of a set. *)
Lemma matches_AtLeast_Chr n b s t p :
  matches b s t (AtLeast n (Chr p))
  <-> (n <= List.length s)%nat /\ forallb p s = true.
Proof.
  revert b s. induction n as [|n IH]; intros b s; cbn [AtLeast].
  - rewrite matches_Star_Chr. split; [split; [lia|assumption] | tauto].
  - rewrite matches_Cat. split.
    + intros (s1 & s2 & -> & H1 & H2). apply matches_Chr in H1.
      destruct H1 as (c & -> & Hc). apply IH in H2. destruct H2 as [Hn Hp].
      cbn [app List.length forallb]. rewrite Hc, Hp. split; [lia|reflexivity].
    + intros [Hn Hp]. destruct s as [|c s]; [cbn in Hn; lia|].
      cbn [List.length forallb] in *. apply andb_prop in Hp.
      destruct Hp as [Hc Hp]. exists [c], s. split; [reflexivity|]. split.
      * apply matches_Chr. eauto.
      * apply IH. split; [lia | exact Hp].
Qed.

(** The strings the pattern accepts, part by part. *)
Lemma url_shape (url : pystr) :
  validate_url url = true
  <-> exists scheme domain tld path nl,
        url = scheme ++ u "://" ++ domain ++ u "." ++ tld ++ path ++ nl
        /\ (scheme = u "http" \/ scheme = u "https")
        /\ domain <> [] /\ forallb domain_char domain = true
        /\ (2 <= List.length tld)%nat /\ forallb letter tld = true
        /\ (path = []
            \/ exists rest,
                 path = u "/" ++ rest
                 /\ forallb (fun c => negb (is_space c)) rest = true)
        /\ (nl = [] \/ nl = [10%N]).
Proof.
  rewrite validate_url_matches. unfold url_pattern, Plus, Opt. split.
  - intros (s1 & nl & -> & H).
    apply matches_Cat in H. destruct H as (s0 & r0 & -> & H0 & H).
    apply matches_Caret in H0. destruct H0 as [-> _]. cbn [app] in *.
    apply matches_Cat in H. destruct H as (scheme & r1 & -> & Hscheme & H).
    apply matches_Cat in H. destruct H as (sep & r2 & -> & Hsep & H).
    apply matches_Cat in H. destruct H as (domain & r3 & -> & Hdomain & H).
    apply matches_Cat in H. destruct H as (suffix & r4 & -> & Hsuffix & H).
    apply matches_Cat in H. destruct H as (path & r5 & -> & Hpath & H).
    apply matches_Dollar in H. destruct H as [-> Hnl].
    apply matches_Lit in Hsep. subst sep.
    apply matches_Cat in Hsuffix.
    destruct Hsuffix as (dot & tld & -> & Hdot & Htld).
    apply matches_Lit in Hdot. subst dot.
    apply (matches_AtLeast_Chr 2) in Htld. destruct Htld as [Hlen Htld].
    exists scheme, domain, tld, path, nl.
    rewrite app_nil_r, <- !app_assoc. split; [reflexivity|].
    split; [|split; [|split; [|split; [exact Hlen|split; [exact Htld|split;
      [|exact Hnl]]]]]].
    + apply matches_Cat in Hscheme.
      destruct Hscheme as (h & s' & -> & Hh & Hs).
      apply matches_Lit in Hh. subst h. apply matches_Alt in Hs.
      destruct Hs as [Hs|Hs].
      * apply matches_Lit in Hs. subst s'. right. reflexivity.
      * apply matches_Eps in Hs. subst s'. left. reflexivity.
    + apply matches_Cat in Hdomain.
      destruct Hdomain as (d1 & d2 & -> & Hd1 & _).
      apply matches_Chr in Hd1. destruct Hd1 as (c & -> & _). discriminate.
    + apply matches_Cat in Hdomain.
      destruct Hdomain as (d1 & d2 & -> & Hd1 & Hd2).
      apply matches_Chr in Hd1. destruct Hd1 as (c & -> & Hc).
      apply matches_Star_Chr in Hd2. cbn [app forallb]. rewrite Hc, Hd2.
      reflexivity.
    + apply matches_Alt in Hpath. destruct Hpath as [Hpath|Hpath].
      * apply matches_Cat in Hpath.
        destruct Hpath as (sl & rest & -> & Hsl & Hrest).
        apply matches_Lit in Hsl. subst sl.
        apply matches_Star_Chr in Hrest. right. eauto.
      * apply matches_Eps in Hpath. auto.
  - intros (scheme & domain & tld & path & nl & -> & Hscheme & Hne & Hdomain
            & Hlen & Htld & Hpath & Hnl).
    exists (scheme ++ u "://" ++ domain ++ u "." ++ tld ++ path), nl.
    split; [rewrite <- !app_assoc; reflexivity|].
    apply matches_Cat. exists [], (scheme ++ u "://" ++ domain ++ u "." ++ tld ++ path).
    split; [reflexivity|]. split; [apply matches_Caret; auto|].
    apply matches_Cat. do 2 eexists. split; [reflexivity|]. split.
    { apply matches_Cat. destruct Hscheme as [->| ->].
      - exists (u "http"), []. split; [reflexivity|]. split.
        + apply matches_Lit. reflexivity.
        + apply matches_Alt. right. apply matches_Eps. reflexivity.
      - exists (u "http"), (u "s"). split; [reflexivity|]. split.
        + apply matches_Lit. reflexivity.
        + apply matches_Alt. left. apply matches_Lit. reflexivity. }
    apply matches_Cat. do 2 eexists. split; [reflexivity|]. split;
      [apply matches_Lit; reflexivity|].
    apply matches_Cat. do 2 eexists. split; [reflexivity|]. split.
    { destruct domain as [|c domain]; [congruence|].
      cbn [forallb] in Hdomain. apply andb_prop in Hdomain.
      destruct Hdomain as [Hc Hd].
      apply matches_Cat. exists [c], domain. split; [reflexivity|]. split.
      - apply matches_Chr. eauto.
      - apply matches_Star_Chr. exact Hd. }
    apply matches_Cat. exists (u "." ++ tld), path.
    split; [rewrite <- app_assoc; reflexivity|]. split.
    { apply matches_Cat. exists (u "."), tld. split; [reflexivity|]. split.
      - apply matches_Lit. reflexivity.
      - apply (matches_AtLeast_Chr 2). auto. }
    apply matches_Cat. exists path, []. split; [rewrite app_nil_r; reflexivity|].
    split.
    { apply matches_Alt. destruct Hpath as [->|(rest & -> & Hrest)].
      - right. apply matches_Eps. reflexivity.
      - left. apply matches_Cat. exists (u "/"), rest.
        split; [reflexivity|]. split.
        + apply matches_Lit. reflexivity.
        + apply matches_Star_Chr. exact Hrest. }
    apply matches_Dollar. auto.
Qed.

(** X1: [validate_url] accepts exactly the strings made of the scheme
    [http] or [https], [://], one or more characters among letters,
    digits, dot and hyphen, a dot, two or more letters, then nothing or a
    slash followed by characters that are not white space, and at the very
    end nothing or one newline. *)
Theorem validate_url_shape (url : pystr) :
  validate_url url = true
  <-> exists scheme domain tld path nl,
        url = scheme ++ u "://" ++ domain ++ u "." ++ tld ++ path ++ nl
        /\ (scheme = u "http" \/ scheme = u "https")
        /\ domain <> [] /\ forallb domain_char domain = true
        /\ (2 <= List.length tld)%nat /\ forallb letter tld = true
        /\ (path = []
            \/ exists rest,
                 path = u "/" ++ rest
                 /\ forallb (fun c => negb (is_space c)) rest = true)
        /\ (nl = [] \/ nl = [10%N]).
Proof. apply url_shape. Qed.

Ltac bool_cases :=
  repeat match goal with
         | H : _ && _ = true |- _ => apply andb_prop in H; destruct H
         | H : _ || _ = true |- _ => apply orb_prop in H; destruct H
         | H : (_ <=? _)%N = true |- _ => apply N.leb_le in H
         | H : (_ =? _)%N = true |- _ => apply N.eqb_eq in H
         end.

Lemma letter_range (c : N) :
  letter c = true -> (65 <= c <= 90 \/ 97 <= c <= 122)%N.
Proof.
  unfold letter.
  change (in_range "a" "z" c) with ((97 <=? c) && (c <=? 122))%N.
  change (in_range "A" "Z" c) with ((65 <=? c) && (c <=? 90))%N.
  intros H. bool_cases; lia.
Qed.

Lemma domain_char_range (c : N) :
  domain_char c = true -> (45 <= c <= 122)%N.
Proof.
  unfold domain_char. intros H. apply orb_prop in H. destruct H as [H|H];
    [apply orb_prop in H; destruct H as [H|H];
       [apply orb_prop in H; destruct H as [H|H]|]|].
  - apply letter_range in H. lia.
  - change (in_range "0" "9" c) with ((48 <=? c) && (c <=? 57))%N in H.
    bool_cases; lia.
  - change (is_char "." c) with (46 =? c)%N in H. bool_cases; lia.
  - change (is_char "-" c) with (45 =? c)%N in H. bool_cases; lia.
Qed.

Lemma is_space_range (c : N) :
  is_space c = true -> (c <= 32 \/ 133 <= c)%N.
Proof. unfold is_space. intros H. bool_cases; lia. Qed.

Lemma printable_not_space (c : N) :
  (33 <= c <= 122)%N -> negb (is_space c) = true.
Proof.
  intros H. destruct (is_space c) eqn:E; [|reflexivity].
  apply is_space_range in E. lia.
Qed.

Lemma forallb_impl {A} (p q : A -> bool) (l : list A) :
  (forall a, p a = true -> q a = true) ->
  forallb p l = true -> forallb q l = true.
Proof.
  intros Hpq. rewrite !forallb_forall. auto.
Qed.

Lemma forallb_last {A} (p : A -> bool) (l : list A) (a : A) :
  forallb p (l ++ [a]) = true -> p a = true.
Proof.
  rewrite forallb_app. cbn [forallb]. intros H.
  apply andb_prop in H. destruct H as [_ H].
  apply andb_prop in H. tauto.
Qed.

(** A list that ends in [c] and is split in two with a second part that
    is not empty: the second part ends in [c]. *)
Lemma ends_in_second_part {A} (l a b : list A) (c : A) :
  l ++ [c] = a ++ b -> b <> [] -> exists b', b = b' ++ [c].
Proof.
  intros E Hb. destruct (exists_last Hb) as (b' & c' & ->).
  rewrite app_assoc in E. apply app_inj_tail in E. destruct E as [_ <-].
  eauto.
Qed.

(** The part of an accepted string before the final newline holds no
    white space. *)
Lemma body_no_space (scheme domain tld path : pystr) :
  (scheme = u "http" \/ scheme = u "https") ->
  forallb domain_char domain = true -> forallb letter tld = true ->
  (path = []
   \/ exists rest,
        path = u "/" ++ rest
        /\ forallb (fun c => negb (is_space c)) rest = true) ->
  forallb (fun c => negb (is_space c))
    (scheme ++ u "://" ++ domain ++ u "." ++ tld ++ path) = true.
Proof.
  intros Hscheme Hdomain Htld Hpath. rewrite !forallb_app.
  assert (Hd : forallb (fun c => negb (is_space c)) domain = true).
  { revert Hdomain. apply forallb_impl. intros c Hc.
    apply printable_not_space. apply domain_char_range in Hc. lia. }
  assert (Ht : forallb (fun c => negb (is_space c)) tld = true).
  { revert Htld. apply forallb_impl. intros c Hc.
    apply printable_not_space. apply letter_range in Hc. lia. }
  assert (Hp : forallb (fun c => negb (is_space c)) path = true).
  { destruct Hpath as [->|(rest & -> & Hrest)]; [reflexivity|].
    rewrite forallb_app, Hrest. reflexivity. }
  rewrite Hd, Ht, Hp. destruct Hscheme as [->| ->]; reflexivity.
Qed.

(** X3: a string that [validate_url] accepts begins with [http://] or
    [https://] and holds no white space, but for one newline it may end
    with. *)
Theorem validate_url_no_space (url : pystr) :
  validate_url url = true ->
  exists body nl,
    url = body ++ nl /\ (nl = [] \/ nl = [10%N])
    /\ forallb (fun c => negb (is_space c)) body = true
    /\ (exists rest, body = u "http://" ++ rest
                     \/ body = u "https://" ++ rest).
Proof.
  intros H. apply url_shape in H.
  destruct H as (scheme & domain & tld & path & nl & -> & Hscheme & _
                 & Hdomain & _ & Htld & Hpath & Hnl).
  exists (scheme ++ u "://" ++ domain ++ u "." ++ tld ++ path), nl.
  split; [rewrite <- !app_assoc; reflexivity|]. split; [exact Hnl|]. split.
  - apply body_no_space; assumption.
  - exists (domain ++ u "." ++ tld ++ path).
    destruct Hscheme as [->| ->]; [left | right]; reflexivity.
Qed.

(** X2: one newline at the end makes no difference to [validate_url]:
    a string that does not end with a newline is accepted exactly when
    the string followed by a newline is. *)
Theorem validate_url_trailing_newline (url : pystr) :
  (forall body, url <> body ++ [10%N]) ->
  validate_url (url ++ [10%N]) = validate_url url.
Proof.
  intros Hend. apply eq_true_iff_eq. rewrite !url_shape. split.
  - intros (scheme & domain & tld & path & nl & E & Hscheme & Hne & Hdomain
            & Hlen & Htld & Hpath & Hnl).
    destruct Hnl as [->| ->].
    + exfalso.
      pose proof (body_no_space scheme domain tld path Hscheme Hdomain
                    Htld Hpath) as Hbody.
      rewrite !app_nil_r in E. rewrite <- E in Hbody.
      apply forallb_last in Hbody. vm_compute in Hbody. discriminate.
    + exists scheme, domain, tld, path, []. rewrite app_nil_r.
      repeat split; auto.
      rewrite !app_assoc in E. apply app_inj_tail in E. destruct E as [E _].
      rewrite E, <- !app_assoc. reflexivity.
  - intros (scheme & domain & tld & path & nl & E & Hscheme & Hne & Hdomain
            & Hlen & Htld & Hpath & Hnl).
    destruct Hnl as [->| ->].
    + exists scheme, domain, tld, path, [10%N]. rewrite app_nil_r in E.
      repeat split; auto. rewrite E, <- !app_assoc. reflexivity.
    + exfalso. apply (Hend (scheme ++ u "://" ++ domain ++ u "." ++ tld ++ path)).
      rewrite E, <- !app_assoc. reflexivity.
Qed.

Lemma validate_url_trailing_newline_witness :
  (forall body, u "https://example.com" <> body ++ [10%N])
  /\ validate_url (u "https://example.com" ++ [10%N])
     = validate_url (u "https://example.com").
Proof.
  assert (H : forall body, u "https://example.com" <> body ++ [10%N]).
  { intros body E.
    assert (E' : last (u "https://example.com") 0%N = last (body ++ [10%N]) 0%N)
      by (rewrite E; reflexivity).
    rewrite last_last in E'. vm_compute in E'. discriminate. }
  split; [exact H|].
  exact (validate_url_trailing_newline (u "https://example.com") H).
Defined.

Lemma validate_url_no_space_witness :
  validate_url (u "http://example.com/path") = true
  /\ exists body nl,
       u "http://example.com/path" = body ++ nl /\ (nl = [] \/ nl = [10%N])
       /\ forallb (fun c => negb (is_space c)) body = true
       /\ (exists rest, body = u "http://" ++ rest
                        \/ body = u "https://" ++ rest).
Proof.
  assert (H : validate_url (u "http://example.com/path") = true)
    by (vm_compute; reflexivity).
  split; [exact H|].
  exact (validate_url_no_space (u "http://example.com/path") H).
Defined.

(** ** Counters and latencies of a report *)

(** X4: the counters of a report are never negative and never add up to
    more than the number of outcomes. *)
Theorem counters_bounds (host_ : pystr) (l : list (option Response)) :
  let rep := HostTestReport_init host_ l in
  0 <= success rep /\ 0 <= failed rep /\ 0 <= errors rep
  /\ success rep + failed rep + errors rep <= Z.of_nat (List.length l).
Proof.
  rewrite init_fields. cbn [success failed errors].
  pose proof (classes_partition l).
  pose proof (count_of_nonneg is_success l).
  pose proof (count_of_nonneg is_failed l).
  pose proof (count_of_nonneg is_error l).
  pose proof (count_of_nonneg is_dropped l). lia.
Qed.

(** X5: the counters of the report of two sequences of outcomes put end to
    end are the sums of the counters of the two reports, and [min] and
    [max] are those of the first report carried on over the latencies of
    the second sequence. *)
Theorem report_of_concatenation (host_ : pystr)
    (l1 l2 : list (option Response)) :
  let rep1 := HostTestReport_init host_ l1 in
  let rep2 := HostTestReport_init host_ l2 in
  let rep := HostTestReport_init host_ (l1 ++ l2) in
  success rep = success rep1 + success rep2
  /\ failed rep = failed rep1 + failed rep2
  /\ errors rep = errors rep1 + errors rep2
  /\ min rep = fold_left keep_min (latencies l2) (min rep1)
  /\ max rep = fold_left keep_max (latencies l2) (max rep1).
Proof.
  rewrite !init_fields. cbn [success failed errors min max].
  rewrite !count_of_app, latencies_app, !fold_left_app. repeat split.
Qed.

Lemma count_of_Permutation (p : option Response -> bool) l l' :
  Permutation l l' -> count_of p l = count_of p l'.
Proof.
  induction 1 as [|o l l' _ IH|o o' l|l l' l'' _ IH1 _ IH2].
  - reflexivity.
  - rewrite !count_of_cons, IH. reflexivity.
  - rewrite !count_of_cons. lia.
  - congruence.
Qed.

(** X6: the counters of a report do not depend on the order of the
    outcomes. *)
Theorem counters_order_free (host_ : pystr) (l l' : list (option Response)) :
  Permutation l l' ->
  let rep := HostTestReport_init host_ l in
  let rep' := HostTestReport_init host_ l' in
  success rep = success rep' /\ failed rep = failed rep'
  /\ errors rep = errors rep'.
Proof.
  intros H. rewrite !init_fields. cbn [success failed errors].
  rewrite !(count_of_Permutation _ l l' H). repeat split.
Qed.

Lemma counters_order_free_witness :
  let l := [None; Some (Fake.ok 200 10000); Some (Fake.ok 404 5)] in
  let l' := [Some (Fake.ok 200 10000); None; Some (Fake.ok 404 5)] in
  Permutation l l'
  /\ let rep := HostTestReport_init (u "https://example.com") l in
     let rep' := HostTestReport_init (u "https://example.com") l' in
     success rep = success rep' /\ failed rep = failed rep'
     /\ errors rep = errors rep'.
Proof.
  intros l l'.
  assert (H : Permutation l l') by apply perm_swap.
  split; [exact H|].
  exact (counters_order_free (u "https://example.com") l l' H).
Defined.

(** *** Latencies of normalised durations *)

Lemma band_check : band_from (Z.to_nat 1000000) (Uint63.of_Z 0) = true.
Proof. vm_compute. reflexivity. Qed.

Lemma float_of_Z_uint63 (z : Z) :
  0 <= z < Uint63.wB -> float_of_Z z = of_uint63 (Uint63.of_Z z).
Proof.
  intros H. unfold float_of_Z.
  rewrite <- (SF2Prim_Prim2SF (of_uint63 (Uint63.of_Z z))).
  rewrite of_uint63_spec, Uint63.of_Z_spec, Z.mod_small by exact H.
  reflexivity.
Qed.

Lemma band_from_spec (n : nat) :
  forall i, band_from n i = true ->
  forall z, Uint63.to_Z i <= z < Uint63.to_Z i + Z.of_nat n ->
            z < Uint63.wB ->
            in_band (of_uint63 (Uint63.of_Z z) / 1000)%float = true.
Proof.
  induction n as [|n IH]; intros i H z Hz Hw; [lia|].
  cbn [band_from] in H. apply andb_prop in H. destruct H as [Hi Hn].
  destruct (Z.eq_dec z (Uint63.to_Z i)) as [->|Hne].
  - rewrite Uint63.of_to_Z. exact Hi.
  - apply (IH _ Hn); [|exact Hw].
    pose proof (Uint63.to_Z_bounded i).
    rewrite Uint63.add_spec, Uint63.of_Z_spec.
    rewrite (Z.mod_small 1) by (unfold Uint63.wB; cbn; lia).
    rewrite Z.mod_small by lia. lia.
Qed.

(** A normalised duration gives a latency from 0 up to, not including,
    1000. *)
Lemma elapsed_time_ms_in_band (r : Response) :
  0 <= microseconds (elapsed r) < 1000000 ->
  in_band (elapsed_time_ms r) = true.
Proof.
  intros H. unfold elapsed_time_ms.
  rewrite float_of_Z_uint63 by (unfold Uint63.wB; cbn; lia).
  replace (float_of_Z 1000) with 1000%float by (vm_compute; reflexivity).
  apply (band_from_spec _ _ band_check);
    [rewrite Uint63.of_Z_spec, Z.mod_small by (unfold Uint63.wB; cbn; lia); lia
    | unfold Uint63.wB; cbn; lia].
Qed.

Lemma latencies_in_band (l : list (option Response)) :
  Forall normalised l -> Forall (fun x => in_band x = true) (latencies l).
Proof.
  induction 1 as [|o l Ho _ IH]; [constructor|].
  unfold latencies in *. cbn [flat_map].
  destruct o as [r|]; [|exact IH].
  destruct (status_code r =? 200); [|exact IH].
  constructor; [apply elapsed_time_ms_in_band, Ho | exact IH].
Qed.

Lemma keep_max_picks (xs : list float) :
  forall m, fold_left keep_max xs m = m \/ In (fold_left keep_max xs m) xs.
Proof.
  induction xs as [|x xs IH]; intros m; cbn [fold_left]; [auto|].
  destruct (IH (keep_max m x)) as [E|Hin]; [|right; right; exact Hin].
  rewrite E. unfold keep_max. destruct (m <? x)%float; [right|left]; cbn; auto.
Qed.

Lemma keep_min_picks (xs : list float) :
  forall m, fold_left keep_min xs m = m \/ In (fold_left keep_min xs m) xs.
Proof.
  induction xs as [|x xs IH]; intros m; cbn [fold_left]; [auto|].
  destruct (IH (keep_min m x)) as [E|Hin]; [|right; right; exact Hin].
  rewrite E. unfold keep_min. destruct (x <? m)%float; [right|left]; cbn; auto.
Qed.

Lemma in_band_parts (x : float) :
  in_band x = true ->
  (float_of_Z (-1) <? x)%float = true /\ (0 <=? x)%float = true
  /\ (x <? 1000)%float = true /\ (x <? inf)%float = true.
Proof.
  rewrite float_of_Z_m1. unfold in_band, inf. intros H.
  apply andb_prop in H. destruct H as [H H4].
  apply andb_prop in H. destruct H as [H H3].
  apply andb_prop in H. tauto.
Qed.

(** X7: with normalised durations, however long the responses took, every
    latency that enters a report is at least 0 and below 1000
    milliseconds, and so is [max] unless it is still [-1]. *)
Theorem latency_below_1000 (host_ : pystr) (l : list (option Response)) :
  Forall normalised l ->
  let rep := HostTestReport_init host_ l in
  (forall x, In x (latencies l) ->
             (0 <=? x)%float = true /\ (x <? 1000)%float = true)
  /\ (max rep <? 1000)%float = true.
Proof.
  intros H rep. subst rep. apply latencies_in_band in H.
  rewrite Forall_forall in H. split.
  - intros x Hx. apply H, in_band_parts in Hx. tauto.
  - rewrite init_fields. cbn [max].
    destruct (keep_max_picks (latencies l) (float_of_Z (-1))) as [->|Hin].
    + vm_compute. reflexivity.
    + apply H, in_band_parts in Hin. tauto.
Qed.

Lemma latency_below_1000_witness :
  let l := [Some {| status_code := 200;
                    elapsed := {| days := 0; seconds := 3;
                                  microseconds := 250000 |} |}; None] in
  Forall normalised l
  /\ let rep := HostTestReport_init (u "https://example.com") l in
     (forall x, In x (latencies l) ->
                (0 <=? x)%float = true /\ (x <? 1000)%float = true)
     /\ (max rep <? 1000)%float = true.
Proof.
  intros l.
  assert (H : Forall normalised l) by (repeat constructor; cbn; lia).
  split; [exact H|].
  exact (latency_below_1000 (u "https://example.com") l H).
Defined.

(** X8: with normalised durations and at least one response of status
    200, [min] and [max] are latencies of such responses: the defaults
    [inf] and [-1] are gone. *)
Theorem success_replaces_sentinels (host_ : pystr)
    (l : list (option Response)) :
  Forall normalised l ->
  let rep := HostTestReport_init host_ l in
  0 < success rep ->
  In (min rep) (latencies l) /\ In (max rep) (latencies l).
Proof.
  intros H rep. subst rep. apply latencies_in_band in H.
  rewrite init_fields. cbn [success min max]. intros Hs.
  destruct (latencies l) as [|x xs] eqn:E.
  - exfalso. revert Hs E. clear. unfold count_of, latencies.
    induction l as [|o l IH]; cbn [filter flat_map List.length];
      [cbn; lia|].
    destruct o as [r|]; cbn [is_success]; [|exact IH].
    destruct (status_code r =? 200); [discriminate | exact IH].
  - inversion H as [|? ? Hx _]; subst. apply in_band_parts in Hx.
    destruct Hx as (Hm1 & _ & _ & Hinf). cbn [fold_left]. split.
    + unfold keep_min at 2. unfold inf in Hinf |- *. rewrite Hinf.
      destruct (keep_min_picks xs x) as [->|Hin]; [left | right]; auto.
    + unfold keep_max at 2. rewrite Hm1.
      destruct (keep_max_picks xs x) as [->|Hin]; [left | right]; auto.
Qed.

Lemma success_replaces_sentinels_witness :
  let l := [None; Some (Fake.ok 200 10000); Some (Fake.ok 200 7000)] in
  Forall normalised l
  /\ let rep := HostTestReport_init (u "https://example.com") l in
     0 < success rep
     /\ In (min rep) (latencies l) /\ In (max rep) (latencies l).
Proof.
  intros l.
  assert (H : Forall normalised l) by (repeat constructor; cbn; lia).
  assert (Hs : 0 < success (HostTestReport_init (u "https://example.com") l))
    by (vm_compute; reflexivity).
  split; [exact H|]. split; [exact Hs|].
  exact (success_replaces_sentinels (u "https://example.com") l H Hs).
Defined.

(** ** The executor and the orchestrator, further *)

(** Naming [Timeout] beside [RequestException] in the [except] clause
    adds nothing: it derives from it. *)
Lemma Timeout_clause_redundant (e : exn) :
  isinstance e [RequestException; Timeout]
  = issubclass (exn_class e) RequestException.
Proof.
  unfold isinstance. cbn [existsb]. rewrite orb_false_r.
  destruct (exn_class e); vm_compute; reflexivity.
Qed.

Section Further.

Variable World : Type.
Variable requests_get : pystr -> float -> World -> outcome Response * World.

(** X9: [get_response] hands a response over as it is, turns into [None]
    exactly the exceptions that derive from [RequestException], and lets
    every other exception through unchanged. *)
Theorem get_response_absorbs_exactly url timeout (st : State World) res w :
  requests_get url timeout (net st) = (res, w) ->
  get_response requests_get url timeout st
  = (match res with
     | Returned r => Returned (Some r)
     | Raised e =>
         if issubclass (exn_class e) RequestException
         then Returned None else Raised e
     end,
     {| net := w; stdout := stdout st |}).
Proof.
  intros H. destruct res as [r|e].
  - apply get_response_returned, H.
  - rewrite (get_response_raised _ _ _ _ _ _ _ H), Timeout_clause_redundant.
    destruct (issubclass _ _); reflexivity.
Qed.

Lemma sequence_returns {A} (items : list (M World A)) :
  Forall (fun item => forall st, exists a st',
            item st = (Returned a, st') /\ stdout st' = stdout st) items ->
  forall st, exists xs st',
    sequence items st = (Returned xs, st')
    /\ List.length xs = List.length items /\ stdout st' = stdout st.
Proof.
  induction 1 as [|item items Hitem _ IH]; intros st.
  - exists [], st. repeat split.
  - destruct (Hitem st) as (a & st1 & E1 & Hout1).
    destruct (IH st1) as (xs & st2 & E2 & Hlen & Hout2).
    exists (a :: xs), st2. cbn [sequence]. unfold bind at 1. rewrite E1.
    unfold bind at 1. rewrite E2. cbn [List.length].
    repeat split; congruence.
Qed.

(** X10: when [requests.get] raises only exceptions of [requests],
    [get_response_list_mock] returns a list of exactly ten outcomes and
    prints nothing. *)
Theorem get_response_list_mock_ten (st : State World) :
  (forall url timeout,
     raises_only_RequestException requests_get url timeout) ->
  exists outcomes st',
    get_response_list_mock requests_get st = (Returned outcomes, st')
    /\ List.length outcomes = 10%nat /\ stdout st' = stdout st.
Proof.
  intros WB. unfold get_response_list_mock.
  apply sequence_returns. repeat constructor; intros st0;
    apply get_response_total, WB.
Qed.

(** X11: with a count that is not positive [test_hosts] makes no request
    and returns no report; unless the list is empty it prints one line,
    about the count when the first host is valid and about the host when
    it is not. *)
Theorem test_hosts_nonpositive_count hosts timeout count (st : State World) :
  count <= 0 ->
  test_hosts requests_get hosts timeout count st
  = (Returned [],
     {| net := net st;
        stdout :=
          stdout st
          ++ match hosts with
             | [] => []
             | h :: _ =>
                 [u "Ошибка при тестировании доступности хоста: "
                  ++ (if validate_url h
                      then u "Кол-во запросов должно быть больше 0"
                      else u "Ошибка в формате хоста: " ++ h)]
             end |}).
Proof.
  intros Hc. apply Z.leb_le in Hc. unfold test_hosts.
  destruct hosts as [|h hosts]; cbn [test_hosts_loop].
  - rewrite app_nil_r. destruct st; reflexivity.
  - unfold test_host, get_response_list, bind, raise. rewrite Hc.
    destruct (validate_url h); cbn; destruct st; reflexivity.
Qed.

(** The report of a valid host accounts for [count] responses. *)
Lemma test_host_report host_ timeout count (st : State World) :
  validate_url host_ = true -> 1 <= count ->
  raises_only_RequestException requests_get host_ timeout ->
  exists responses,
    test_host requests_get host_ timeout count st
    = (Returned (HostTestReport_init host_ responses),
       state_after requests_get (Z.to_nat count) host_ timeout st)
    /\ Z.of_nat (List.length responses) = count.
Proof.
  intros Hv Hc WB. unfold test_host. rewrite Hv.
  destruct (get_response_list_positive World requests_get host_ timeout
              count st Hc WB) as (os & E & Hlen & _).
  exists os. unfold bind. rewrite E. auto.
Qed.

(** X12: for a valid host and a positive count, [test_host] makes [count]
    requests to the host and returns a report that bears its name and
    whose counters add up to [count] at most. *)
Theorem test_host_accounts_for_count host_ timeout count (st : State World) :
  validate_url host_ = true -> 1 <= count ->
  raises_only_RequestException requests_get host_ timeout ->
  exists report,
    test_host requests_get host_ timeout count st
    = (Returned report,
       state_after requests_get (Z.to_nat count) host_ timeout st)
    /\ host report = host_
    /\ 0 <= success report /\ 0 <= failed report /\ 0 <= errors report
    /\ success report + failed report + errors report <= count.
Proof.
  intros Hv Hc WB.
  destruct (test_host_report host_ timeout count st Hv Hc WB)
    as (os & E & Hlen).
  eexists. split; [exact E|]. rewrite init_fields.
  cbn [host success failed errors].
  pose proof (classes_partition os).
  pose proof (count_of_nonneg is_success os).
  pose proof (count_of_nonneg is_failed os).
  pose proof (count_of_nonneg is_error os).
  pose proof (count_of_nonneg is_dropped os).
  repeat split; lia.
Qed.

(** The loop over the completed futures when every future raised an
    exception that is caught: no report, one line for each. *)
Lemma collect_all_raised (futures : list (outcome HostTestReport * pystr)) :
  (forall fut, In fut futures ->
     exists e, fst fut = Raised e /\ isinstance e [Exception] = true) ->
  forall order reports out,
  (forall i, In i order -> (i < List.length futures)%nat) ->
  exists out',
    collect futures order reports out = (Returned reports, out')
    /\ List.length out' = (List.length out + List.length order)%nat.
Proof.
  intros Hall. induction order as [|i order IH]; intros reports out Hin.
  - exists out. cbn. split; [reflexivity | lia].
  - cbn [collect].
    destruct (nth_error futures i) as [[res h]|] eqn:E.
    + destruct (Hall _ (nth_error_In _ _ E)) as (e & Hres & He).
      cbn [fst] in Hres. subst res. rewrite He.
      destruct (IH reports
                  (out ++ [u "Ошибка при тестировании доступности хоста: "
                           ++ h ++ u ": " ++ exn_str e]))
        as (out' & -> & Hlen); [intros j Hj; apply Hin; right; exact Hj|].
      exists out'. split; [reflexivity|].
      rewrite Hlen, length_app. cbn [List.length]. lia.
    + apply nth_error_None in E. specialize (Hin i (or_introl eq_refl)). lia.
Qed.

(** X13: with a count that is not positive [test_hosts_parallel] returns
    no report and prints one line for each host. *)
Theorem test_hosts_parallel_nonpositive_count hosts timeout count
    thread_count (run : Run World) out :
  count <= 0 -> 1 <= thread_count ->
  Permutation (completion run) (seq 0 (List.length hosts)) ->
  exists out',
    test_hosts_parallel requests_get hosts timeout count thread_count run out
    = (Returned [], out')
    /\ List.length out' = (List.length out + List.length hosts)%nat.
Proof.
  intros Hc Ht Hperm. unfold test_hosts_parallel.
  destruct (thread_count <=? 0) eqn:Et; [apply Z.leb_le in Et; lia|].
  assert (Hlen : List.length (submit_all requests_get run hosts timeout count)
                 = List.length hosts).
  { unfold submit_all. rewrite length_map, length_combine, length_seq. lia. }
  destruct (collect_all_raised
              (submit_all requests_get run hosts timeout count))
    with (order := completion run) (reports := @nil HostTestReport)
         (out := out) as (out' & E & Hout).
  - intros fut Hin. unfold submit_all in Hin. apply in_map_iff in Hin.
    destruct Hin as ([i h] & <- & _). cbn [fst snd].
    unfold submit, test_host, get_response_list, bind, raise.
    apply Z.leb_le in Hc. rewrite Hc.
    destruct (validate_url h); cbn [fst]; eexists; split; try reflexivity;
      vm_compute; reflexivity.
  - intros i Hi. rewrite Hlen.
    apply (Permutation_in _ Hperm), in_seq in Hi. lia.
  - exists out'. split; [exact E|].
    rewrite Hout, (Permutation_length Hperm), length_seq. reflexivity.
Qed.

(** What the two modes return, host by host. *)
Lemma sequential_hosts hosts timeout count (st : State World) :
  1 <= count ->
  (forall h, In h hosts ->
             raises_only_RequestException requests_get h timeout) ->
  exists reports,
    fst (test_hosts requests_get hosts timeout count st) = Returned reports
    /\ map host reports = take_while validate_url hosts.
Proof.
  intros Hc WB.
  assert (WB' : forall h, In h (take_while validate_url hosts) ->
                  raises_only_RequestException requests_get h timeout)
    by (intros h Hh; apply WB, (take_while_incl validate_url hosts h Hh)).
  destruct (test_hosts_loop_prefix World requests_get hosts timeout count
              Hc WB' [] st) as (rs & st1 & Eeach & Eloop).
  destruct (test_each_valid World requests_get _ timeout count
              (take_while_all validate_url hosts) Hc WB' st)
    as (rs' & st' & E' & Hhosts & _).
  rewrite Eeach in E'. inversion E'; subst rs' st'.
  exists rs. split; [|exact Hhosts].
  unfold test_hosts. rewrite Eloop. cbn [app].
  destruct (find _ hosts); cbn; reflexivity.
Qed.

Lemma parallel_hosts hosts timeout count thread_count (run : Run World) out :
  1 <= count -> 1 <= thread_count ->
  (forall h, In h hosts ->
             raises_only_RequestException requests_get h timeout) ->
  Permutation (completion run) (seq 0 (List.length hosts)) ->
  exists reports out',
    test_hosts_parallel requests_get hosts timeout count thread_count run out
    = (Returned reports, out')
    /\ Permutation (map host reports) (filter validate_url hosts).
Proof.
  intros Hc Ht WB Hperm.
  destruct (submit_all_results World requests_get run hosts timeout count
              Hc WB 0%nat) as [Hhosts Hexn]. cbn zeta in Hhosts, Hexn.
  fold (submit_all requests_get run hosts timeout count) in Hhosts, Hexn.
  set (futures := submit_all requests_get run hosts timeout count) in *.
  assert (Hlen : List.length futures = List.length hosts).
  { subst futures. unfold submit_all.
    rewrite length_map, length_combine, length_seq. lia. }
  destruct (collect_caught futures) with (order := completion run)
    (reports := @nil HostTestReport) (out := out) as (out' & E).
  { intros i e h Hi. apply (Hexn (Raised e, h)); [|reflexivity].
    eapply nth_error_In, Hi. }
  exists (flat_map (result_at futures) (completion run)), out'.
  unfold test_hosts_parallel.
  destruct (thread_count <=? 0) eqn:Et; [apply Z.leb_le in Et; lia|].
  fold futures. rewrite E. cbn [app]. split; [reflexivity|].
  rewrite <- Hhosts. apply Permutation_map.
  rewrite <- result_at_seq, Hlen. apply Permutation_flat_map. exact Hperm.
Qed.

Lemma take_while_filter {A} (p : A -> bool) (l : list A) :
  incl (take_while p l) (filter p l)
  /\ (forallb p l = true -> take_while p l = l /\ filter p l = l).
Proof.
  induction l as [|a l [IH1 IH2]]; cbn [take_while filter forallb].
  - split; [apply incl_refl | auto].
  - destruct (p a) eqn:E; cbn [andb].
    + split.
      * apply incl_cons; [apply in_eq | apply incl_tl, IH1].
      * intros H. destruct (IH2 H) as [-> ->]. auto.
    + split; [apply incl_nil_l | discriminate].
Qed.

(** X14: every host that gets a report from [test_hosts] gets one from
    [test_hosts_parallel] too, and when all hosts are valid the two modes
    report on the same hosts, each once. *)
Theorem sequential_within_parallel hosts timeout count thread_count
    (run : Run World) (st : State World) :
  1 <= count -> 1 <= thread_count ->
  (forall h, In h hosts ->
             raises_only_RequestException requests_get h timeout) ->
  Permutation (completion run) (seq 0 (List.length hosts)) ->
  exists sequential parallel out',
    fst (test_hosts requests_get hosts timeout count st)
    = Returned sequential
    /\ test_hosts_parallel requests_get hosts timeout count thread_count
         run (stdout st) = (Returned parallel, out')
    /\ incl (map host sequential) (map host parallel)
    /\ (forallb validate_url hosts = true ->
        map host sequential = hosts
        /\ Permutation (map host parallel) hosts).
Proof.
  intros Hc Ht WB Hperm.
  destruct (sequential_hosts hosts timeout count st Hc WB) as (rs & Es & Hs).
  destruct (parallel_hosts hosts timeout count thread_count run (stdout st)
              Hc Ht WB Hperm) as (rp & out' & Ep & Hp).
  exists rs, rp, out'. split; [exact Es|]. split; [exact Ep|].
  destruct (take_while_filter validate_url hosts) as [Hincl Hall].
  rewrite Hs. split.
  - intros h Hh. apply Hincl in Hh.
    apply (Permutation_in _ (Permutation_sym Hp)), Hh.
  - intros Hv. destruct (Hall Hv) as [E1 E2]. rewrite E2 in Hp. auto.
Qed.

End Further.

Lemma get_response_absorbs_exactly_witness :
  let url := u "https://example.com" in
  let st := Fake.start [None] in
  let e := {| exn_class := ConnectionError; exn_str := u "refused" |} in
  Fake.requests_get url 5%float (net st) = (Raised e, [])
  /\ get_response Fake.requests_get url 5%float st
     = (if issubclass (exn_class e) RequestException
        then Returned None else Raised e,
        {| net := []; stdout := stdout st |}).
Proof.
  intros url st e. split; [reflexivity|].
  exact (get_response_absorbs_exactly Fake.World Fake.requests_get url
           5%float st (Raised e) [] eq_refl).
Defined.

Lemma get_response_list_mock_ten_witness :
  (forall url timeout,
     raises_only_RequestException Fake.requests_get url timeout)
  /\ exists outcomes st',
       get_response_list_mock Fake.requests_get
         (Fake.start [Some (Fake.ok 200 10000)])
       = (Returned outcomes, st')
       /\ List.length outcomes = 10%nat
       /\ stdout st' = stdout (Fake.start [Some (Fake.ok 200 10000)]).
Proof.
  split; [exact fake_raises_only_RequestException|].
  exact (get_response_list_mock_ten Fake.World Fake.requests_get
           (Fake.start [Some (Fake.ok 200 10000)])
           fake_raises_only_RequestException).
Defined.

Lemma test_hosts_nonpositive_count_witness :
  let st := Fake.start [Some (Fake.ok 200 10000)] in
  0 <= 0
  /\ test_hosts Fake.requests_get [u "https://example.com"] 5%float 0 st
     = (Returned [],
        {| net := net st;
           stdout :=
             stdout st
             ++ [u "Ошибка при тестировании доступности хоста: "
                 ++ (if validate_url (u "https://example.com")
                     then u "Кол-во запросов должно быть больше 0"
                     else u "Ошибка в формате хоста: "
                            ++ u "https://example.com")] |}).
Proof.
  intros st. assert (H : 0 <= 0) by lia. split; [exact H|].
  exact (test_hosts_nonpositive_count Fake.World Fake.requests_get
           [u "https://example.com"] 5%float 0 st H).
Defined.

Lemma test_host_accounts_for_count_witness :
  let h := u "https://example.com" in
  let st := Fake.start [Some (Fake.ok 200 10000); Some (Fake.ok 301 500)] in
  validate_url h = true /\ 1 <= 3
  /\ raises_only_RequestException Fake.requests_get h 5%float
  /\ exists report,
       test_host Fake.requests_get h 5%float 3 st
       = (Returned report,
          state_after Fake.requests_get (Z.to_nat 3) h 5%float st)
       /\ host report = h
       /\ 0 <= success report /\ 0 <= failed report /\ 0 <= errors report
       /\ success report + failed report + errors report <= 3.
Proof.
  intros h st.
  assert (Hv : validate_url h = true) by (vm_compute; reflexivity).
  assert (Hc : 1 <= 3) by lia.
  split; [exact Hv|]. split; [exact Hc|].
  split; [apply fake_raises_only_RequestException|].
  exact (test_host_accounts_for_count Fake.World Fake.requests_get h
           5%float 3 st Hv Hc (fake_raises_only_RequestException h 5%float)).
Defined.

Lemma test_hosts_parallel_nonpositive_count_witness :
  let hosts := [u "https://example.com"; u "example.com"] in
  let run := {| view := fun _ => [Some (Fake.ok 200 10000)];
                completion := rev (seq 0 2) |} in
  0 <= 0 /\ 1 <= 2
  /\ Permutation (completion run) (seq 0 (List.length hosts))
  /\ exists out',
       test_hosts_parallel Fake.requests_get hosts 5%float 0 2 run []
       = (Returned [], out')
       /\ List.length out' = (List.length (@nil pystr) + List.length hosts)%nat.
Proof.
  intros hosts run.
  assert (Hc : 0 <= 0) by lia.
  assert (Ht : 1 <= 2) by lia.
  assert (Hp : Permutation (completion run) (seq 0 (List.length hosts)))
    by (apply Permutation_sym, Permutation_rev).
  repeat (split; [assumption|]).
  exact (test_hosts_parallel_nonpositive_count Fake.World Fake.requests_get
           hosts 5%float 0 2 run [] Hc Ht Hp).
Defined.

Lemma sequential_within_parallel_witness :
  let hosts := [u "https://example.com"; u "example.com";
                u "http://example.com/path"] in
  let run := {| view := fun _ => [Some (Fake.ok 200 10000)];
                completion := rev (seq 0 3) |} in
  let st := Fake.start [Some (Fake.ok 200 10000)] in
  1 <= 1 /\ 1 <= 2
  /\ (forall h, In h hosts ->
                raises_only_RequestException Fake.requests_get h 5%float)
  /\ Permutation (completion run) (seq 0 (List.length hosts))
  /\ exists sequential parallel out',
       fst (test_hosts Fake.requests_get hosts 5%float 1 st)
       = Returned sequential
       /\ test_hosts_parallel Fake.requests_get hosts 5%float 1 2 run
            (stdout st) = (Returned parallel, out')
       /\ incl (map host sequential) (map host parallel)
       /\ (forallb validate_url hosts = true ->
           map host sequential = hosts
           /\ Permutation (map host parallel) hosts).
Proof.
  intros hosts run st.
  assert (Hc : 1 <= 1) by lia.
  assert (Ht : 1 <= 2) by lia.
  assert (WB : forall h, In h hosts ->
                 raises_only_RequestException Fake.requests_get h 5%float)
    by (intros h _; apply fake_raises_only_RequestException).
  assert (Hp : Permutation (completion run) (seq 0 (List.length hosts)))
    by (apply Permutation_sym, Permutation_rev).
  repeat (split; [assumption|]).
  exact (sequential_within_parallel Fake.World Fake.requests_get hosts
           5%float 1 2 run st Hc Ht WB Hp).
Defined.

(** ** Splitting, stripping, lines *)

Lemma split_not_nil (sep : N) (s : pystr) : split sep s <> [].
Proof.
  destruct s as [|c s]; cbn [split]; [discriminate|].
  destruct (c =? sep)%N; [discriminate|].
  destruct (split sep s); discriminate.
Qed.

(** X15: [split] on the comma loses nothing and leaves no comma: joining
    the pieces with commas gives the string back, no piece holds a comma,
    and there is one piece more than there are commas, so never none. *)
Theorem split_join (s : pystr) :
  join [44%N] (split 44 s) = s
  /\ Forall (fun piece => ~ In 44%N piece) (split 44 s)
  /\ List.length (split 44 s)
     = S (List.length (filter (N.eqb 44) s)).
Proof.
  induction s as [|c s (IHj & IHc & IHl)]; cbn [split].
  - repeat split. repeat constructor. tauto.
  - pose proof (split_not_nil 44 s) as Hne.
    cbn [filter]. rewrite (N.eqb_sym 44 c).
    destruct (c =? 44)%N eqn:E.
    + apply N.eqb_eq in E. subst c. split; [|split].
      * cbn [join]. destruct (split 44 s) as [|p ps] eqn:Es; [congruence|].
        cbn [app]. rewrite IHj. reflexivity.
      * constructor; [tauto | exact IHc].
      * cbn [List.length]. rewrite IHl. reflexivity.
    + apply N.eqb_neq in E.
      destruct (split 44 s) as [|p ps] eqn:Es; [congruence|].
      split; [|split].
      * cbn [join] in *. destruct ps; cbn [app]; rewrite <- IHj; reflexivity.
      * inversion IHc; subst. constructor; [|assumption].
        intros [H|H]; [congruence | tauto].
      * cbn [List.length] in *. exact IHl.
Qed.

Lemma drop_space_app (l m : pystr) :
  drop_space (l ++ m)
  = if forallb is_space l then drop_space m else drop_space l ++ m.
Proof.
  induction l as [|c l IH]; cbn [app drop_space forallb]; [reflexivity|].
  destruct (is_space c); cbn [andb]; [exact IH | reflexivity].
Qed.

Lemma drop_space_all (l : pystr) :
  forallb is_space l = true -> drop_space l = [].
Proof.
  induction l as [|c l IH]; cbn [drop_space forallb]; [reflexivity|].
  destruct (is_space c); cbn [andb]; [exact IH | discriminate].
Qed.

Lemma drop_space_head (l : pystr) :
  is_space (hd 32%N (drop_space l)) = false \/ drop_space l = [].
Proof.
  induction l as [|c l IH]; cbn [drop_space]; [auto|].
  destruct (is_space c) eqn:E; [exact IH | left; exact E].
Qed.

Lemma drop_space_clean (l : pystr) :
  is_space (hd 32%N l) = false -> drop_space l = l.
Proof.
  destruct l as [|c l]; cbn [hd drop_space]; [reflexivity|].
  intros ->. reflexivity.
Qed.

Lemma drop_space_incl (l : pystr) : incl (drop_space l) l.
Proof.
  induction l as [|c l IH]; cbn [drop_space]; [apply incl_refl|].
  destruct (is_space c); [apply incl_tl, IH | apply incl_refl].
Qed.

Lemma strip_incl (s : pystr) : incl (strip s) s.
Proof.
  unfold strip. intros c Hc. apply in_rev in Hc.
  apply drop_space_incl, in_rev in Hc. apply drop_space_incl, Hc.
Qed.

(** What [strip] returns: nothing, or a string whose first and last
    characters are not white space. *)
Lemma strip_ends (s : pystr) :
  strip s = []
  \/ (is_space (hd 32%N (strip s)) = false
      /\ is_space (last (strip s) 32%N) = false).
Proof.
  unfold strip. destruct (drop_space s) as [|c r] eqn:E; [left; reflexivity|].
  right. assert (Hc : is_space c = false).
  { destruct (drop_space_head s) as [H|H]; rewrite E in H;
      [exact H | discriminate]. }
  cbn [rev]. rewrite drop_space_app. cbn [drop_space]. rewrite Hc.
  destruct (forallb is_space (rev r)) eqn:Hall.
  - cbn. auto.
  - rewrite rev_app_distr. cbn [rev app hd]. split; [exact Hc|].
    destruct (drop_space_head (rev r)) as [H|H].
    + destruct (drop_space (rev r)) as [|d q] eqn:Ed.
      * cbn in H. discriminate.
      * cbn [hd] in H. cbn [rev]. 
        change (c :: rev q ++ [d]) with ((c :: rev q) ++ [d]).
        rewrite last_last. exact H.
    + rewrite H. cbn. exact Hc.
Qed.

Lemma strip_clean (s : pystr) :
  is_space (hd 32%N s) = false -> is_space (last s 32%N) = false ->
  strip s = s.
Proof.
  intros Hh Hl. unfold strip. rewrite (drop_space_clean s Hh).
  rewrite drop_space_clean; [apply rev_involutive|].
  destruct s as [|c s] using rev_ind; [exact Hh|].
  rewrite rev_app_distr. cbn [rev app hd]. rewrite last_last in Hl. exact Hl.
Qed.

Lemma strip_idempotent (s : pystr) : strip (strip s) = strip s.
Proof.
  destruct (strip_ends s) as [E|[Hh Hl]].
  - rewrite E. reflexivity.
  - apply strip_clean; assumption.
Qed.

(** A newline at the end of a line does not survive [strip]. *)
Lemma strip_newline (s : pystr) : strip (s ++ [10%N]) = strip s.
Proof.
  unfold strip. rewrite drop_space_app.
  destruct (forallb is_space s) eqn:Hall.
  - rewrite (drop_space_all s Hall). reflexivity.
  - rewrite rev_app_distr. reflexivity.
Qed.

Lemma readlines_lines_bounded (n : nat) :
  forall text, (List.length text <= n)%nat ->
  Forall (fun line => exists body,
            (line = body ++ [10%N] \/ line = body)
            /\ ~ In 10%N body /\ ~ In 13%N body)
         (readlines text).
Proof.
  assert (Hnl : exists body : pystr,
            ([10%N] = body ++ [10%N] \/ [10%N] = body)
            /\ ~ In 10%N body /\ ~ In 13%N body)
    by (exists []; cbn; tauto).
  induction n as [|n IH]; intros text Hn.
  { destruct text; [constructor | cbn in Hn; lia]. }
  destruct text as [|c rest]; cbn [readlines]; [constructor|].
  cbn [List.length] in Hn.
  destruct (c =? 10)%N eqn:E10.
  { constructor; [exact Hnl | apply IH; lia]. }
  destruct (c =? 13)%N eqn:E13.
  { destruct rest as [|c' rest']; [repeat constructor; exact Hnl|].
    cbn [List.length] in Hn.
    destruct (c' =? 10)%N;
      (constructor; [exact Hnl | apply IH; cbn [List.length]; lia]). }
  apply N.eqb_neq in E10, E13.
  specialize (IH rest ltac:(lia)).
  destruct (readlines rest) as [|line lines].
  - repeat constructor. exists [c]. cbn. intuition congruence.
  - inversion IH as [|? ? (body & Hline & H10 & H13) Hrest]; subst.
    constructor; [|exact Hrest]. exists (c :: body). split.
    + destruct Hline as [->| ->]; [left | right]; reflexivity.
    + cbn. intuition congruence.
Qed.

(** A line of [readlines]: characters other than [\n] and [\r], and
    maybe one [\n] after them. *)
Lemma readlines_lines (text : pystr) :
  Forall (fun line => exists body,
            (line = body ++ [10%N] \/ line = body)
            /\ ~ In 10%N body /\ ~ In 13%N body)
         (readlines text).
Proof. apply (readlines_lines_bounded (List.length text)). lia. Qed.

(** X16: every host that comes out of the text of a file is not empty,
    neither begins nor ends with white space, so that [strip] leaves it as
    it is, and holds no line break. *)
Theorem hosts_of_text_clean (text h : pystr) :
  In h (hosts_of_text text) ->
  h <> [] /\ strip h = h
  /\ is_space (hd 32%N h) = false /\ is_space (last h 32%N) = false
  /\ ~ In 10%N h /\ ~ In 13%N h.
Proof.
  unfold hosts_of_text. intros H. apply filter_In in H. destruct H as [H Hne].
  apply in_map_iff in H. destruct H as (line & <- & Hline).
  pose proof (readlines_lines text) as Hl. rewrite Forall_forall in Hl.
  destruct (Hl line Hline) as (body & Hb & H10 & H13).
  assert (Es : strip line = strip body)
    by (destruct Hb as [->| ->]; [apply strip_newline | reflexivity]).
  assert (Hnil : strip line <> [])
    by (intros E; rewrite E in Hne; discriminate).
  destruct (strip_ends line) as [E|[Hh Hlast]]; [congruence|].
  split; [exact Hnil|]. split; [apply strip_idempotent|].
  split; [exact Hh|]. split; [exact Hlast|]. rewrite Es.
  split; intros Hin; apply strip_incl in Hin; tauto.
Qed.

Lemma hosts_of_text_clean_witness :
  let text := u "  https://example.com  " ++ [13%N; 10%N; 10%N] ++ u "b" in
  In (u "https://example.com") (hosts_of_text text)
  /\ u "https://example.com" <> []
  /\ strip (u "https://example.com") = u "https://example.com"
  /\ is_space (hd 32%N (u "https://example.com")) = false
  /\ is_space (last (u "https://example.com") 32%N) = false
  /\ ~ In 10%N (u "https://example.com")
  /\ ~ In 13%N (u "https://example.com").
Proof.
  intros text.
  assert (H : In (u "https://example.com") (hosts_of_text text))
    by (vm_compute; left; reflexivity).
  split; [exact H|].
  exact (hosts_of_text_clean text (u "https://example.com") H).
Defined.

Lemma readlines_line (h rest : pystr) :
  ~ In 10%N h -> ~ In 13%N h ->
  readlines (h ++ 10%N :: rest) = (h ++ [10%N]) :: readlines rest
  /\ readlines (h ++ 13%N :: 10%N :: rest) = (h ++ [10%N]) :: readlines rest.
Proof.
  induction h as [|c h IH]; intros H10 H13.
  - split; reflexivity.
  - cbn [In] in H10, H13.
    destruct IH as [IH1 IH2]; [tauto | tauto |].
    assert (E10 : (c =? 10)%N = false) by (apply N.eqb_neq; intuition).
    assert (E13 : (c =? 13)%N = false) by (apply N.eqb_neq; intuition).
    cbn [app readlines]. rewrite E10, E13, IH1, IH2. split; reflexivity.
Qed.

(** X17: a file written with one host to a line is read back as it was
    written: for hosts that are not empty, do not begin or end with white
    space and hold no line break, each followed by a newline or by a
    carriage return and a newline, the text gives back the list of
    hosts. *)
Theorem hosts_of_text_round_trip (hosts : list pystr) (eol : pystr) :
  eol = [10%N] \/ eol = [13%N; 10%N] ->
  Forall (fun h => h <> []
                   /\ is_space (hd 32%N h) = false
                   /\ is_space (last h 32%N) = false
                   /\ ~ In 10%N h /\ ~ In 13%N h) hosts ->
  hosts_of_text (List.concat (map (fun h => h ++ eol) hosts)) = hosts.
Proof.
  intros Heol H. induction H as [|h hosts (Hne & Hh & Hl & H10 & H13) _ IH];
    [reflexivity|].
  cbn [map List.concat]. rewrite <- app_assoc.
  destruct (readlines_line h (List.concat (map (fun h => h ++ eol) hosts))
              H10 H13) as [E1 E2].
  unfold hosts_of_text in *.
  destruct Heol as [->| ->]; cbn [app]; rewrite ?E1, ?E2;
    cbn [map filter]; rewrite strip_newline, (strip_clean h Hh Hl), IH;
    destruct h; [congruence | reflexivity | congruence | reflexivity].
Qed.

Lemma hosts_of_text_round_trip_witness :
  let hosts := [u "https://example.com"; u "http://example.com/a b"] in
  ([13%N; 10%N] = [10%N] \/ [13%N; 10%N] = [13%N; 10%N])
  /\ Forall (fun h => h <> []
                      /\ is_space (hd 32%N h) = false
                      /\ is_space (last h 32%N) = false
                      /\ ~ In 10%N h /\ ~ In 13%N h) hosts
  /\ hosts_of_text (List.concat (map (fun h => h ++ [13%N; 10%N]) hosts)) = hosts.
Proof.
  intros hosts.
  assert (He : [13%N; 10%N] = [10%N] \/ [13%N; 10%N] = [13%N; 10%N])
    by (right; reflexivity).
  assert (H : Forall (fun h => h <> []
                      /\ is_space (hd 32%N h) = false
                      /\ is_space (last h 32%N) = false
                      /\ ~ In 10%N h /\ ~ In 13%N h) hosts).
  { repeat constructor; try discriminate; try (vm_compute; reflexivity);
      vm_compute; intuition discriminate. }
  split; [exact He|]. split; [exact H|].
  exact (hosts_of_text_round_trip hosts [13%N; 10%N] He H).
Defined.

(** ** Files and reports *)

Section Files.

Variable World : Type.
Variable read_text : option pystr -> World -> outcome pystr * World.
Variable open_write : pystr -> World -> outcome unit * World.
Variable file_write : pystr -> pystr -> World -> outcome unit * World.
Variable file_close : pystr -> World -> outcome unit * World.

Lemma read_hosts_from_file_cases filepath (st : State World) res w :
  read_text filepath (net st) = (res, w) ->
  read_hosts_from_file read_text filepath st
  = match res with
    | Returned text =>
        (Returned (Some (hosts_of_text text)),
         {| net := w; stdout := stdout st |})
    | Raised e =>
        if issubclass (exn_class e) Exception then
          (Returned None,
           {| net := w;
              stdout := stdout st ++ [u "Ошибка чтения файла: " ++ exn_str e] |})
        else (Raised e, {| net := w; stdout := stdout st |})
    end.
Proof.
  intros H. unfold read_hosts_from_file, try_except, bind, io. rewrite H.
  destruct res as [text|e]; [reflexivity|].
  unfold isinstance. cbn [existsb]. rewrite orb_false_r.
  destruct (issubclass (exn_class e) Exception); reflexivity.
Qed.

(** X18: [read_hosts_from_file] returns the hosts of the text when the
    file could be read, also when there are none; when reading raised an
    [Exception] it prints one line and returns [None]; any other exception
    goes through. It never raises an [Exception] itself. *)
Theorem read_hosts_from_file_result filepath (st : State World) res w :
  read_text filepath (net st) = (res, w) ->
  read_hosts_from_file read_text filepath st
  = match res with
    | Returned text =>
        (Returned (Some (hosts_of_text text)),
         {| net := w; stdout := stdout st |})
    | Raised e =>
        if issubclass (exn_class e) Exception then
          (Returned None,
           {| net := w;
              stdout := stdout st ++ [u "Ошибка чтения файла: " ++ exn_str e] |})
        else (Raised e, {| net := w; stdout := stdout st |})
    end.
Proof. apply read_hosts_from_file_cases. Qed.

Lemma for_each_app {A} (xs ys : list A) (body : A -> M World unit) st :
  for_each (xs ++ ys) body st
  = bind (for_each xs body) (fun _ => for_each ys body) st.
Proof.
  revert st. induction xs as [|x xs IH]; intros st; cbn [app for_each].
  - reflexivity.
  - unfold bind in *. destruct (body x st) as [[[]|e] st1]; [|reflexivity].
    apply IH.
Qed.

Lemma for_each_io_stdout {A} (xs : list A)
    (op : A -> World -> outcome unit * World) st res st' :
  for_each xs (fun x => io (op x)) st = (res, st') ->
  stdout st' = stdout st.
Proof.
  revert st. induction xs as [|x xs IH]; intros st E.
  - cbn in E. inversion E. reflexivity.
  - cbn [for_each] in E. unfold bind, io at 1 in E.
    destruct (op x (net st)) as [[b|e] w].
    + apply IH in E. exact E.
    + inversion E. reflexivity.
Qed.

(** X19: [write_reports] stops at the first failure and reports it. When
    opening the file raises an [Exception], nothing is written or closed;
    when the file opens and a write raises an [Exception] after the
    reports before it were written, the later reports are not written and
    the file is closed. Either way one line with the text of the exception
    is printed and [write_reports] returns. *)
Theorem write_reports_stops_at_failure filepath (st : State World) :
  (forall reports e w,
     open_write filepath (net st) = (Raised e, w) ->
     issubclass (exn_class e) Exception = true ->
     write_reports open_write file_write file_close filepath reports st
     = (Returned tt,
        {| net := w;
           stdout := stdout st ++ [u "Ошибка записи в файл: " ++ exn_str e] |}))
  /\ (forall pre r post w1 st2 e w3 w4,
       open_write filepath (net st) = (Returned tt, w1) ->
       for_each pre
         (fun report => io (file_write filepath (to_string report)))
         {| net := w1; stdout := stdout st |} = (Returned tt, st2) ->
       file_write filepath (to_string r) (net st2) = (Raised e, w3) ->
       file_close filepath w3 = (Returned tt, w4) ->
       issubclass (exn_class e) Exception = true ->
       write_reports open_write file_write file_close filepath
         (pre ++ r :: post) st
       = (Returned tt,
          {| net := w4;
             stdout := stdout st
                       ++ [u "Ошибка записи в файл: " ++ exn_str e] |})).
Proof.
  assert (Hi : forall e, issubclass (exn_class e) Exception = true ->
                         isinstance e [Exception] = true).
  { intros e He. unfold isinstance. cbn [existsb]. rewrite He. reflexivity. }
  split.
  - intros reports e w Ho He.
    unfold write_reports, try_except, with_open_write, bind.
    unfold io at 1. rewrite Ho, (Hi e He). reflexivity.
  - intros pre r post w1 st2 e w3 w4 Ho Hpre Hw Hc He.
    assert (Hout : stdout st2 = stdout st).
    { apply (for_each_io_stdout pre
               (fun report => file_write filepath (to_string report)))
        in Hpre. exact Hpre. }
    unfold write_reports, try_except, with_open_write, bind at 1.
    unfold io at 1. rewrite Ho. rewrite for_each_app. unfold bind at 1.
    rewrite Hpre. cbn [for_each]. unfold bind at 1, io at 1. rewrite Hw.
    unfold io at 1. cbn [net stdout]. rewrite Hc, (Hi e He).
    unfold print. cbn [net stdout]. rewrite Hout. reflexivity.
Qed.

Lemma print_reports_run reports (st : State World) :
  print_reports reports st
  = (Returned tt,
     {| net := net st; stdout := stdout st ++ map to_string reports |}).
Proof.
  unfold print_reports. revert st.
  induction reports as [|r reports IH]; intros st; cbn [for_each map].
  - rewrite app_nil_r. destruct st; reflexivity.
  - unfold bind, print at 1. rewrite IH. cbn [net stdout].
    rewrite <- app_assoc. reflexivity.
Qed.

(** X20: [print_reports] prints the text of each report, in order, and
    touches nothing else. *)
Theorem print_reports_stdout reports (st : State World) :
  print_reports reports st
  = (Returned tt,
     {| net := net st; stdout := stdout st ++ map to_string reports |}).
Proof. apply print_reports_run. Qed.

End Files.

Lemma write_reports_stops_at_failure_witness :
  let p := u "out.txt" in
  let rep := HostTestReport_init (u "https://example.com") [None] in
  let denied := {| exn_class := OSError;
                   exn_str := u "[Errno 13] Permission denied" |} in
  let full := {| exn_class := OSError;
                 exn_str := u "[Errno 28] No space left on device" |} in
  let st0 : State Quota.World := {| net := None; stdout := [] |} in
  let st1 : State Quota.World := {| net := Some 1%nat; stdout := [] |} in
  let st2 : State Quota.World := {| net := Some 0%nat; stdout := [] |} in
  (Quota.open_write p (net st0) = (Raised denied, None)
   /\ issubclass (exn_class denied) Exception = true
   /\ write_reports Quota.open_write Quota.file_write Quota.file_close p
        [rep] st0
      = (Returned tt,
         {| net := None;
            stdout := stdout st0
                      ++ [u "Ошибка записи в файл: " ++ exn_str denied] |}))
  /\ (Quota.open_write p (net st1) = (Returned tt, Some 1%nat)
      /\ for_each [rep]
           (fun report => io (Quota.file_write p (to_string report)))
           {| net := Some 1%nat; stdout := stdout st1 |} = (Returned tt, st2)
      /\ Quota.file_write p (to_string rep) (net st2)
         = (Raised full, Some 0%nat)
      /\ Quota.file_close p (Some 0%nat) = (Returned tt, Some 0%nat)
      /\ issubclass (exn_class full) Exception = true
      /\ write_reports Quota.open_write Quota.file_write Quota.file_close p
           ([rep] ++ rep :: [rep]) st1
         = (Returned tt,
            {| net := Some 0%nat;
               stdout := stdout st1
                         ++ [u "Ошибка записи в файл: " ++ exn_str full] |})).
Proof.
  intros p rep denied full st0 st1 st2.
  assert (Hd : issubclass (exn_class denied) Exception = true)
    by (vm_compute; reflexivity).
  assert (Hf : issubclass (exn_class full) Exception = true)
    by (vm_compute; reflexivity).
  split.
  - split; [reflexivity|]. split; [exact Hd|].
    apply (write_reports_stops_at_failure Quota.World Quota.open_write
             Quota.file_write Quota.file_close p st0);
      [reflexivity | exact Hd].
  - split; [reflexivity|]. split; [reflexivity|]. split; [reflexivity|].
    split; [reflexivity|]. split; [exact Hf|].
    apply (write_reports_stops_at_failure Quota.World Quota.open_write
             Quota.file_write Quota.file_close p st1)
      with (w1 := Some 1%nat) (st2 := st2) (w3 := Some 0%nat);
      [reflexivity | reflexivity | reflexivity | reflexivity | exact Hf].
Defined.

Lemma read_hosts_from_file_result_witness :
  let st := Machine.start [] [(u "hosts.txt", u "https://example.com")] in
  let e := {| exn_class := OSError;
              exn_str := u "[Errno 2] No such file or directory" |} in
  Machine.read_text (Some (u "missing.txt")) (net st) = (Raised e, net st)
  /\ read_hosts_from_file Machine.read_text (Some (u "missing.txt")) st
     = (if issubclass (exn_class e) Exception then
          (Returned None,
           {| net := net st;
              stdout := stdout st ++ [u "Ошибка чтения файла: " ++ exn_str e] |})
        else (Raised e, {| net := net st; stdout := stdout st |})).
Proof.
  intros st e.
  assert (H : Machine.read_text (Some (u "missing.txt")) (net st)
              = (Raised e, net st)) by (vm_compute; reflexivity).
  split; [exact H|].
  exact (read_hosts_from_file_result Machine.World Machine.read_text
           (Some (u "missing.txt")) st (Raised e) (net st) H).
Defined.

(** *** On the disk of the example machine *)

Lemma path_eqb_eq (p q : pystr) : Machine.path_eqb p q = true <-> p = q.
Proof.
  revert q. induction p as [|a p IH]; intros [|b q]; cbn [Machine.path_eqb];
    try (split; [discriminate | congruence]); [tauto|].
  rewrite andb_true_iff, N.eqb_eq, IH. split; [intros [-> ->] | intros H];
    [reflexivity | inversion H; auto].
Qed.

Lemma path_eqb_refl (p : pystr) : Machine.path_eqb p p = true.
Proof. apply path_eqb_eq. reflexivity. Qed.

Lemma path_eqb_neq (p q : pystr) : p <> q -> Machine.path_eqb p q = false.
Proof.
  intros H. destruct (Machine.path_eqb p q) eqn:E; [|reflexivity].
  apply path_eqb_eq in E. contradiction.
Qed.

Lemma lookup_update (p : pystr) f fs :
  Machine.lookup p (Machine.update p f fs)
  = Some (f (Machine.lookup p fs)).
Proof.
  induction fs as [|[q text] fs IH]; cbn [Machine.update Machine.lookup].
  - rewrite path_eqb_refl. reflexivity.
  - destruct (Machine.path_eqb p q) eqn:E; cbn [Machine.lookup]; rewrite E;
      [reflexivity | exact IH].
Qed.

Lemma lookup_update_other (p q : pystr) f fs :
  q <> p ->
  Machine.lookup q (Machine.update p f fs) = Machine.lookup q fs.
Proof.
  intros Hne. induction fs as [|[q' text] fs IH];
    cbn [Machine.update Machine.lookup].
  - rewrite (path_eqb_neq q p Hne). reflexivity.
  - destruct (Machine.path_eqb p q') eqn:E; cbn [Machine.lookup].
    + apply path_eqb_eq in E. subst q'.
      rewrite (path_eqb_neq q p Hne). reflexivity.
    + rewrite IH. reflexivity.
Qed.

Lemma for_each_writes (p : pystr) (reports : list HostTestReport) :
  forall (st : State Machine.World) acc,
  Machine.lookup p (Machine.files (net st)) = Some acc ->
  exists st',
    for_each reports
      (fun report => io (Machine.file_write p (to_string report))) st
    = (Returned tt, st')
    /\ Machine.lookup p (Machine.files (net st'))
       = Some (acc ++ List.concat (map to_string reports))
    /\ (forall q, q <> p ->
          Machine.lookup q (Machine.files (net st'))
          = Machine.lookup q (Machine.files (net st)))
    /\ Machine.script (net st') = Machine.script (net st)
    /\ stdout st' = stdout st.
Proof.
  induction reports as [|r reports IH]; intros st acc Hacc.
  - exists st. cbn. rewrite app_nil_r. auto.
  - cbn [for_each map List.concat]. unfold bind, io at 1.
    cbn [Machine.file_write].
    match goal with
    | |- context [for_each reports _ ?s] =>
        destruct (IH s (acc ++ to_string r)) as (st' & E & Hp & Hq & Hs & Ho)
    end.
    { cbn [net Machine.files]. rewrite lookup_update, Hacc. reflexivity. }
    exists st'. rewrite E. split; [reflexivity|].
    cbn [net Machine.files Machine.script stdout] in *.
    rewrite Hp, <- app_assoc. split; [reflexivity|]. split; [|auto].
    intros q Hne. rewrite (Hq q Hne). apply lookup_update_other, Hne.
Qed.

(** X21: on a disk that takes every write, [write_reports] leaves in the
    file the texts of the reports one after the other, in place of what
    the file held before, an empty file when there is no report; it
    changes no other file and prints nothing. *)
Theorem write_reports_content (p : pystr) (reports : list HostTestReport)
    (st : State Machine.World) :
  let result :=
    write_reports Machine.open_write Machine.file_write Machine.file_close
      p reports st in
  fst result = Returned tt
  /\ Machine.lookup p (Machine.files (net (snd result)))
     = Some (List.concat (map to_string reports))
  /\ (forall q, q <> p ->
        Machine.lookup q (Machine.files (net (snd result)))
        = Machine.lookup q (Machine.files (net st)))
  /\ Machine.script (net (snd result)) = Machine.script (net st)
  /\ stdout (snd result) = stdout st.
Proof.
  destruct (for_each_writes p reports
              {| net := {| Machine.script := Machine.script (net st);
                           Machine.files :=
                             Machine.update p (fun _ => [])
                               (Machine.files (net st)) |};
                 stdout := stdout st |} [])
    as (st' & E & Hp & Hq & Hs & Ho).
  { cbn [net Machine.files]. apply lookup_update. }
  assert (Ew : write_reports Machine.open_write Machine.file_write
                 Machine.file_close p reports st
               = (Returned tt, {| net := net st'; stdout := stdout st' |})).
  { unfold write_reports, try_except, with_open_write, bind.
    unfold io at 1. cbn [Machine.open_write]. rewrite E. reflexivity. }
  cbn zeta. rewrite Ew. cbn [fst snd net stdout].
  cbn [net Machine.files Machine.script stdout app] in *.
  split; [reflexivity|]. split; [exact Hp|]. split; [|auto].
  intros q Hne. rewrite (Hq q Hne). apply lookup_update_other, Hne.
Qed.

(** ** main *)

Section Main.

Variable World : Type.
Variable requests_get : pystr -> float -> World -> outcome Response * World.
Variable read_text : option pystr -> World -> outcome pystr * World.
Variable open_write : pystr -> World -> outcome unit * World.
Variable file_write : pystr -> pystr -> World -> outcome unit * World.
Variable file_close : pystr -> World -> outcome unit * World.
Variable repr_list : list pystr -> pystr.

(** X22: with a count below 1, [main] prints one line and exits with
    status 1, before it reads a file or makes a request. *)
Theorem main_rejects_count args run after_pool (st : State World) :
  args_count args < 1 ->
  main requests_get read_text open_write file_write file_close repr_list
    args run after_pool st
  = (Raised {| exn_class := SystemExit; exn_str := u "1" |},
     {| net := net st;
        stdout := stdout st
                  ++ [u "Параметр --count должен быть положительным числом."] |}).
Proof.
  intros H. apply Z.ltb_lt in H. unfold main, bind at 1. rewrite H.
  reflexivity.
Qed.

(** X23: when the list of hosts is to come from a file and reading it
    raises an [Exception], [main] prints the line about the file and then
    ends with a [TypeError], from [len] of [None], not with an exit
    status; no request is made. *)
Theorem main_unreadable_file args run after_pool (st : State World) e w :
  1 <= args_count args ->
  args_hosts args = None \/ args_hosts args = Some [] ->
  read_text (args_file args) (net st) = (Raised e, w) ->
  issubclass (exn_class e) Exception = true ->
  main requests_get read_text open_write file_write file_close repr_list
    args run after_pool st
  = (Raised {| exn_class := TypeError;
               exn_str := u "object of type 'NoneType' has no len()" |},
     {| net := w;
        stdout := stdout st ++ [u "Ошибка чтения файла: " ++ exn_str e] |}).
Proof.
  intros Hc Hh Hr He. unfold main, bind at 1.
  destruct (args_count args <? 1) eqn:E; [apply Z.ltb_lt in E; lia|].
  cbn [ret]. unfold bind at 1.
  assert (Er : read_hosts_from_file read_text (args_file args) st
               = (Returned None,
                  {| net := w;
                     stdout := stdout st
                               ++ [u "Ошибка чтения файла: " ++ exn_str e] |})).
  { rewrite (read_hosts_from_file_cases World read_text _ st _ _ Hr), He.
    reflexivity. }
  destruct Hh as [-> | ->]; rewrite Er; reflexivity.
Qed.

(** X24: when the file is read and holds no host (it is empty, or all
    its lines are blank), [main] prints that the list is empty and exits
    with status 1; no request is made. *)
Theorem main_no_hosts_in_file args run after_pool (st : State World)
    text w :
  1 <= args_count args ->
  args_hosts args = None \/ args_hosts args = Some [] ->
  read_text (args_file args) (net st) = (Returned text, w) ->
  hosts_of_text text = [] ->
  main requests_get read_text open_write file_write file_close repr_list
    args run after_pool st
  = (Raised {| exn_class := SystemExit; exn_str := u "1" |},
     {| net := w; stdout := stdout st ++ [u "Список хостов пуст."] |}).
Proof.
  intros Hc Hh Hr Ht. unfold main, bind at 1.
  destruct (args_count args <? 1) eqn:E; [apply Z.ltb_lt in E; lia|].
  cbn [ret]. unfold bind at 1.
  assert (Er : read_hosts_from_file read_text (args_file args) st
               = (Returned (Some []), {| net := w; stdout := stdout st |})).
  { rewrite (read_hosts_from_file_cases World read_text _ st _ _ Hr), Ht.
    reflexivity. }
  destruct Hh as [-> | ->]; rewrite Er; reflexivity.
Qed.

(** The start of [main] when the hosts come from the command line: the
    list is never empty, so [main] prints it and goes on. *)
Lemma main_with_hosts_option args run after_pool (st : State World) c s :
  1 <= args_count args ->
  args_hosts args = Some (c :: s) ->
  main requests_get read_text open_write file_write file_close repr_list
    args run after_pool st
  = bind (match args_parallel_threads args with
          | Some thread_count =>
              fun st0 =>
                let (res, out) :=
                  test_hosts_parallel requests_get (split 44 (c :: s))
                    (float_of_Z 5) (args_count args) thread_count run
                    (stdout st0) in
                (res, {| net := after_pool; stdout := out |})
          | None =>
              test_hosts requests_get (split 44 (c :: s)) (float_of_Z 5)
                (args_count args)
          end)
      (fun reports =>
         match args_output args with
         | Some filepath =>
             write_reports open_write file_write file_close filepath reports
         | None => print_reports reports
         end)
      {| net := net st;
         stdout := stdout st ++ [repr_list (split 44 (c :: s))] |}.
Proof.
  intros Hc Hh. unfold main, bind at 1.
  destruct (args_count args <? 1) eqn:E; [apply Z.ltb_lt in E; lia|].
  cbn [ret]. rewrite Hh. unfold bind at 1. cbn [ret].
  unfold bind at 1. cbn [len ret]. unfold bind at 1.
  pose proof (split_not_nil 44 (c :: s)) as Hne.
  destruct (Z.of_nat (List.length (split 44 (c :: s))) =? 0) eqn:E0.
  { apply Z.eqb_eq in E0. destruct (split 44 (c :: s)); [congruence|].
    cbn [List.length] in E0. lia. }
  cbn [ret]. unfold bind at 1, print at 1. reflexivity.
Qed.

(** X25: with the hosts given on the command line, a positive count and
    no option for threads, [main] prints the list, tests the hosts with
    [test_hosts] and a timeout of 5, and then prints the reports, or
    writes them to the output file when one is given; the reports are
    those of the hosts before the first invalid one. *)
Theorem main_sequential args run after_pool (st : State World) c s :
  1 <= args_count args ->
  args_hosts args = Some (c :: s) ->
  args_parallel_threads args = None ->
  (forall h, In h (split 44 (c :: s)) ->
             raises_only_RequestException requests_get h (float_of_Z 5)) ->
  exists reports st1,
    test_hosts requests_get (split 44 (c :: s)) (float_of_Z 5)
      (args_count args)
      {| net := net st;
         stdout := stdout st ++ [repr_list (split 44 (c :: s))] |}
    = (Returned reports, st1)
    /\ map host reports = take_while validate_url (split 44 (c :: s))
    /\ main requests_get read_text open_write file_write file_close
         repr_list args run after_pool st
       = match args_output args with
         | Some filepath =>
             write_reports open_write file_write file_close filepath
               reports st1
         | None =>
             (Returned tt,
              {| net := net st1;
                 stdout := stdout st1 ++ map to_string reports |})
         end.
Proof.
  intros Hc Hh Hp WB.
  rewrite (main_with_hosts_option args run after_pool st c s Hc Hh), Hp.
  destruct (sequential_hosts World requests_get (split 44 (c :: s))
              (float_of_Z 5) (args_count args)
              {| net := net st;
                 stdout := stdout st ++ [repr_list (split 44 (c :: s))] |}
              Hc WB) as (reports & E & Hhosts).
  destruct (test_hosts requests_get _ _ _ _) as [res st1] eqn:Et.
  cbn [fst] in E. subst res. exists reports, st1.
  split; [reflexivity|]. split; [exact Hhosts|].
  unfold bind. rewrite Et.
  destruct (args_output args); [reflexivity | apply print_reports_run].
Qed.

(** X26: with the hosts given on the command line and a number of threads
    that is not positive, [main] prints the list of hosts and ends with
    the [ValueError] of the thread pool; nothing is tested. *)
Theorem main_nonpositive_threads args run after_pool (st : State World)
    c s thread_count :
  1 <= args_count args ->
  args_hosts args = Some (c :: s) ->
  args_parallel_threads args = Some thread_count ->
  thread_count <= 0 ->
  let result :=
    main requests_get read_text open_write file_write file_close repr_list
      args run after_pool st in
  fst result
  = Raised {| exn_class := ValueError;
              exn_str := u "max_workers must be greater than 0" |}
  /\ stdout (snd result) = stdout st ++ [repr_list (split 44 (c :: s))].
Proof.
  intros Hc Hh Hp Ht.
  rewrite (main_with_hosts_option args run after_pool st c s Hc Hh), Hp.
  unfold bind, test_hosts_parallel. apply Z.leb_le in Ht. rewrite Ht.
  cbn. auto.
Qed.

End Main.

(** *** The theorems on [main] at work on the example machine *)

Lemma machine_raises_only_RequestException url timeout :
  raises_only_RequestException Machine.requests_get url timeout.
Proof.
  intros w e w' H. unfold Machine.requests_get in H.
  destruct (Fake.requests_get url timeout (Machine.script w)) as [res s] eqn:E.
  inversion H; subst.
  apply (fake_raises_only_RequestException url timeout _ _ _ E).
Qed.

Lemma main_rejects_count_witness :
  let args := {| args_hosts := Some (u "https://example.com");
                 args_file := None; args_count := 0;
                 args_output := None; args_parallel_threads := None |} in
  let st := Machine.start [Some (Fake.ok 200 10000)] [] in
  let run := {| view := fun _ => net st; completion := [] |} in
  args_count args < 1
  /\ main Machine.requests_get Machine.read_text Machine.open_write
       Machine.file_write Machine.file_close Machine.repr_list
       args run (net st) st
     = (Raised {| exn_class := SystemExit; exn_str := u "1" |},
        {| net := net st;
           stdout := stdout st
                     ++ [u "Параметр --count должен быть положительным числом."] |}).
Proof.
  intros args st run. assert (H : args_count args < 1) by (cbn; lia).
  split; [exact H|].
  exact (main_rejects_count Machine.World Machine.requests_get
           Machine.read_text Machine.open_write Machine.file_write
           Machine.file_close Machine.repr_list args run (net st) st H).
Defined.

Lemma main_unreadable_file_witness :
  let args := {| args_hosts := None; args_file := Some (u "missing.txt");
                 args_count := 1;
                 args_output := None; args_parallel_threads := None |} in
  let st := Machine.start [Some (Fake.ok 200 10000)] [] in
  let run := {| view := fun _ => net st; completion := [] |} in
  let e := {| exn_class := OSError;
              exn_str := u "[Errno 2] No such file or directory" |} in
  1 <= args_count args
  /\ (args_hosts args = None \/ args_hosts args = Some [])
  /\ Machine.read_text (args_file args) (net st) = (Raised e, net st)
  /\ issubclass (exn_class e) Exception = true
  /\ main Machine.requests_get Machine.read_text Machine.open_write
       Machine.file_write Machine.file_close Machine.repr_list
       args run (net st) st
     = (Raised {| exn_class := TypeError;
                  exn_str := u "object of type 'NoneType' has no len()" |},
        {| net := net st;
           stdout := stdout st ++ [u "Ошибка чтения файла: " ++ exn_str e] |}).
Proof.
  intros args st run e.
  assert (Hc : 1 <= args_count args) by (cbn; lia).
  assert (Hh : args_hosts args = None \/ args_hosts args = Some [])
    by (left; reflexivity).
  assert (Hr : Machine.read_text (args_file args) (net st)
               = (Raised e, net st)) by (vm_compute; reflexivity).
  assert (He : issubclass (exn_class e) Exception = true)
    by (vm_compute; reflexivity).
  repeat (split; [assumption|]).
  exact (main_unreadable_file Machine.World Machine.requests_get
           Machine.read_text Machine.open_write Machine.file_write
           Machine.file_close Machine.repr_list args run (net st) st e
           (net st) Hc Hh Hr He).
Defined.

Lemma main_no_hosts_in_file_witness :
  let args := {| args_hosts := None; args_file := Some (u "hosts.txt");
                 args_count := 1;
                 args_output := None; args_parallel_threads := None |} in
  let text := [32%N; 10%N; 13%N; 10%N; 9%N] in
  let st := Machine.start [Some (Fake.ok 200 10000)]
              [(u "hosts.txt", text)] in
  let run := {| view := fun _ => net st; completion := [] |} in
  1 <= args_count args
  /\ (args_hosts args = None \/ args_hosts args = Some [])
  /\ Machine.read_text (args_file args) (net st) = (Returned text, net st)
  /\ hosts_of_text text = []
  /\ main Machine.requests_get Machine.read_text Machine.open_write
       Machine.file_write Machine.file_close Machine.repr_list
       args run (net st) st
     = (Raised {| exn_class := SystemExit; exn_str := u "1" |},
        {| net := net st;
           stdout := stdout st ++ [u "Список хостов пуст."] |}).
Proof.
  intros args text st run.
  assert (Hc : 1 <= args_count args) by (cbn; lia).
  assert (Hh : args_hosts args = None \/ args_hosts args = Some [])
    by (left; reflexivity).
  assert (Hr : Machine.read_text (args_file args) (net st)
               = (Returned text, net st)) by (vm_compute; reflexivity).
  assert (Ht : hosts_of_text text = []) by (vm_compute; reflexivity).
  repeat (split; [assumption|]).
  exact (main_no_hosts_in_file Machine.World Machine.requests_get
           Machine.read_text Machine.open_write Machine.file_write
           Machine.file_close Machine.repr_list args run (net st) st text
           (net st) Hc Hh Hr Ht).
Defined.

Lemma main_sequential_witness :
  let c := 104%N in
  let s := u "ttps://example.com,bad,http://example.com/path" in
  let args := {| args_hosts := Some (c :: s); args_file := None;
                 args_count := 1;
                 args_output := None; args_parallel_threads := None |} in
  let st := Machine.start [Some (Fake.ok 200 10000)] [] in
  let run := {| view := fun _ => net st; completion := [] |} in
  1 <= args_count args
  /\ args_hosts args = Some (c :: s)
  /\ args_parallel_threads args = None
  /\ (forall h, In h (split 44 (c :: s)) ->
        raises_only_RequestException Machine.requests_get h (float_of_Z 5))
  /\ exists reports st1,
       test_hosts Machine.requests_get (split 44 (c :: s)) (float_of_Z 5)
         (args_count args)
         {| net := net st;
            stdout := stdout st ++ [Machine.repr_list (split 44 (c :: s))] |}
       = (Returned reports, st1)
       /\ map host reports = take_while validate_url (split 44 (c :: s))
       /\ main Machine.requests_get Machine.read_text Machine.open_write
            Machine.file_write Machine.file_close Machine.repr_list
            args run (net st) st
          = match args_output args with
            | Some filepath =>
                write_reports Machine.open_write Machine.file_write
                  Machine.file_close filepath reports st1
            | None =>
                (Returned tt,
                 {| net := net st1;
                    stdout := stdout st1 ++ map to_string reports |})
            end.
Proof.
  intros c s args st run.
  assert (Hc : 1 <= args_count args) by (cbn; lia).
  assert (Hh : args_hosts args = Some (c :: s)) by reflexivity.
  assert (Hp : args_parallel_threads args = None) by reflexivity.
  assert (WB : forall h, In h (split 44 (c :: s)) ->
                 raises_only_RequestException Machine.requests_get h
                   (float_of_Z 5))
    by (intros h _; apply machine_raises_only_RequestException).
  repeat (split; [assumption|]).
  exact (main_sequential Machine.World Machine.requests_get
           Machine.read_text Machine.open_write Machine.file_write
           Machine.file_close Machine.repr_list args run (net st) st c s
           Hc Hh Hp WB).
Defined.

Lemma main_nonpositive_threads_witness :
  let c := 104%N in
  let s := u "ttps://example.com" in
  let args := {| args_hosts := Some (c :: s); args_file := None;
                 args_count := 1;
                 args_output := None; args_parallel_threads := Some 0 |} in
  let st := Machine.start [Some (Fake.ok 200 10000)] [] in
  let run := {| view := fun _ => net st; completion := [0%nat] |} in
  1 <= args_count args
  /\ args_hosts args = Some (c :: s)
  /\ args_parallel_threads args = Some 0
  /\ 0 <= 0
  /\ let result :=
       main Machine.requests_get Machine.read_text Machine.open_write
         Machine.file_write Machine.file_close Machine.repr_list
         args run (net st) st in
     fst result
     = Raised {| exn_class := ValueError;
                 exn_str := u "max_workers must be greater than 0" |}
     /\ stdout (snd result)
        = stdout st ++ [Machine.repr_list (split 44 (c :: s))].
Proof.
  intros c s args st run.
  assert (Hc : 1 <= args_count args) by (cbn; lia).
  assert (Hh : args_hosts args = Some (c :: s)) by reflexivity.
  assert (Hp : args_parallel_threads args = Some 0) by reflexivity.
  assert (Ht : 0 <= 0) by lia.
  repeat (split; [assumption|]).
  exact (main_nonpositive_threads Machine.World Machine.requests_get
           Machine.read_text Machine.open_write Machine.file_write
           Machine.file_close Machine.repr_list args run (net st) st c s 0
           Hc Hh Hp Ht).
Defined.
